(** * DBMS_ASSERT (orafce, [assert.c]): identifier validation

    A shallow embedding of [assert.c] and the properties of its name
    parser, its simple-name check and its entry points.

    Conventions.  A [char *] walking over a NUL-terminated buffer is the
    list of the characters from the pointer up to the terminator, so that
    [*p] is the head ([NUL] on the empty list) and [p + 1] the tail.  A
    [text] datum is the list of its payload bytes; its payload is not
    NUL-terminated, and a read behind it is reported rather than given a
    value. *)

From Stdlib Require Import Ascii String List ZArith Bool Lia.
From Equations Require Import Equations.
Import ListNotations.

Local Open Scope Z_scope.
Local Open Scope list_scope.

(** ** Characters *)

Module Chars.

Definition NUL : ascii := "000"%char.
Definition dquote : ascii := "034"%char.
Definition squote : ascii := "039"%char.
Definition dot : ascii := "."%char.
Definition underscore : ascii := "_"%char.

Definition code (c : ascii) : Z := Z.of_N (N_of_ascii c).

Definition between (lo hi : Z) (c : ascii) : bool :=
  (lo <=? code c) && (code c <=? hi).

(** Modelled from the spec: [isspace] of <ctype.h> is not in the
    repository; the spec speaks of whitespace, taken here as the six
    whitespace characters of the C locale (HT, LF, VT, FF, CR, space). *)
Definition isspace (c : ascii) : bool :=
  between 9 13 c || (code c =? 32).

(** Modelled from the spec: [isalnum] of <ctype.h> is not in the
    repository; the spec has ASCII letters and digits, no national
    characters. *)
Definition isalnum (c : ascii) : bool :=
  between 48 57 c || between 65 90 c || between 97 122 c.

Definition chr_is (k c : ascii) : bool := Ascii.eqb c k.

(** The characters of an unquoted name. *)
Definition name_char (c : ascii) : bool :=
  isalnum c || chr_is underscore c.

Lemma chr_is_true k c : chr_is k c = true <-> c = k.
Proof. unfold chr_is. apply Ascii.eqb_eq. Qed.

Lemma chr_is_false k c : chr_is k c = false <-> c <> k.
Proof. unfold chr_is. apply Ascii.eqb_neq. Qed.

End Chars.
Import Chars.

(** A string literal as a list of characters. *)
Definition str (s : string) : list ascii := list_ascii_of_string s.

(** ** Data *)

(** The payload of a varlena [text] datum. *)
Definition text := list ascii.

(** The characters from a [char *] up to the terminating NUL. *)
Definition cstring := list ascii.

Definition deref (p : cstring) : ascii := hd NUL p.
Definition next (p : cstring) : cstring := tl p.

(** Modelled from the spec: the varlena macros of postgres.h are not in the
    repository; a datum is a 4-byte header followed by the payload, and
    "empty" in the spec is a payload of length zero. *)
Definition VARHDRSZ : Z := 4.
Definition VARSIZE (t : text) : Z := VARHDRSZ + Z.of_nat (length t).
Definition VARDATA (t : text) : list ascii := t.
Definition EMPTY_STR (t : text) : bool := VARSIZE t - VARHDRSZ =? 0.

(** Modelled from the spec: [text_to_cstring] of the host is not in the
    repository; it copies the payload and appends a NUL, so the C string
    the parser is run over ends at the first NUL of the payload, if any. *)
Fixpoint text_to_cstring (t : text) : cstring :=
  match t with
  | [] => []
  | c :: t' => if chr_is NUL c then [] else c :: text_to_cstring t'
  end.

Inductive ErrorKind : Type :=
| INVALID_SCHEMA_NAME
| INVALID_OBJECT_NAME
| ISNOT_SIMPLE_SQL_NAME
| ISNOT_QUALIFIED_SQL_NAME.

(** What is not one of the four validation failures. *)
Inductive fault : Type :=
| ReadPastEnd      (* a byte behind the payload was read *)
| HostError.       (* a host routine raised an error of its own *)

(** The result of an entry point: [PG_RETURN_TEXT_P], [ereport(ERROR, ...)]
    with one of the package's codes, or something else. *)
Inductive outcome : Type :=
| Return (t : text)
| Raise (e : ErrorKind)
| Fault (f : fault).

(** ** DBMS_ASSERT.SIMPLE_SQL_NAME *)

Module Simple.

(** The loop of the quoted branch and the test that follows it:
<<
    for (...; len-- > 0; cp++)
    {
        if ( *cp == dquote)
        {
            if (len-- == 0) return false;
            if ( *cp != dquote) return false;
        }
    }
    if ( *cp != dquote) return false;
    return true;
>>
    [cp] holds the payload bytes from the pointer on; [None] is a read
    behind the payload. *)
Fixpoint quoted_loop (cp : list ascii) (len : Z) : option bool :=
  if 0 <? len then
    let len := len - 1 in
    match cp with
    | [] => None
    | c :: cp' =>
        if chr_is dquote c then
          if len =? 0 then Some false
          else
            let len := len - 1 in
            if negb (chr_is dquote c) then Some false
            else quoted_loop cp' len
        else quoted_loop cp' len
    end
  else
    match cp with
    | [] => None
    | c :: _ => if negb (chr_is dquote c) then Some false else Some true
    end.

(** The loop of the other branch:
<<
    for (; len-- > 0; cp++)
        if (!isalnum( *cp) && *cp != '_') return false;
    return true;
>> *)
Fixpoint plain_loop (cp : list ascii) (len : Z) : option bool :=
  if 0 <? len then
    match cp with
    | [] => None
    | c :: cp' =>
        if negb (isalnum c) && negb (chr_is underscore c) then Some false
        else plain_loop cp' (len - 1)
    end
  else Some true.

Definition check_sql_name (cp : list ascii) (len : Z) : option bool :=
  match cp with
  | [] => None
  | c :: cp' =>
      if chr_is dquote c then quoted_loop cp' (len - 2)
      else plain_loop cp len
  end.

Definition dbms_assert_simple_sql_name (arg : option text) : outcome :=
  match arg with
  | None => Raise ISNOT_SIMPLE_SQL_NAME
  | Some sname =>
      if EMPTY_STR sname then Raise ISNOT_SIMPLE_SQL_NAME
      else
        let len := VARSIZE sname - VARHDRSZ in
        let cp := VARDATA sname in
        match check_sql_name cp len with
        | None => Fault ReadPastEnd
        | Some false => Raise ISNOT_SIMPLE_SQL_NAME
        | Some true => Return sname
        end
  end.

End Simple.
Import Simple.

(** ** The name parser *)

Module Parser.

(** One name of a qualified name.  The source delimits each name by
    [curname] and [endp] and returns only its verdict; the model returns
    the delimited names as well, so that the verdict is [parse_names]
    having a result. *)
Record NamePart : Type := mkNamePart
  { part_text : list ascii;
    wasQuoted : bool }.

Definition inspect {A : Type} (a : A) : { b : A | a = b } :=
  exist _ a eq_refl.

(** [while (isspace((unsigned char) *nextp)) nextp++;] *)
Fixpoint skip_space (nextp : cstring) : cstring :=
  match nextp with
  | [] => nextp
  | c :: rest => if isspace c then skip_space rest else nextp
  end.

(** [strchr(s, c)] for a [c] other than NUL: the pointer to the first [c]
    of [s], here with the characters stepped over, or [None] for NULL. *)
Fixpoint strchr (s : cstring) (c : ascii) : option (list ascii * cstring) :=
  match s with
  | [] => None
  | x :: s' =>
      if chr_is c x then Some ([], s)
      else
        match strchr s' c with
        | None => None
        | Some (skipped, endp) => Some (x :: skipped, endp)
        end
  end.

Lemma strchr_found s c skipped endp :
  strchr s c = Some (skipped, endp) ->
  s = skipped ++ endp /\ deref endp = c /\ endp <> [].
Proof.
  revert skipped endp.
  induction s as [|x s' IH]; intros skipped endp H; simpl in H.
  - discriminate.
  - destruct (chr_is c x) eqn:Ex.
    + injection H as <- <-. apply chr_is_true in Ex. subst x.
      repeat split. discriminate.
    + destruct (strchr s' c) as [[sk e]|] eqn:Es; [|discriminate].
      injection H as <- <-.
      destruct (IH _ _ eq_refl) as (-> & Hd & Hn).
      repeat split; assumption.
Qed.

(** The quoted branch, entered with [nextp] at a quote:
<<
    for (;;)
    {
        endp = strchr(nextp + 1, dquote);
        if (endp == NULL) return false;
        if (endp[1] != dquote) break;
        memmove(endp, endp + 1, strlen(endp));
        nextp = endp;
    }
    nextp = endp + 1;
>>
    The [memmove] makes the string at [endp] the one that was at
    [endp + 1], so [nextp] then stands at the quote that was kept.  The
    result is the name between [curname] and [endp], collected in [acc],
    and the new [nextp]. *)
Equations? quoted_name (nextp : cstring) (acc : list ascii)
  : option (list ascii * cstring) by wf (length nextp) lt :=
  quoted_name nextp acc with inspect (strchr (next nextp) dquote) => {
    | exist _ None _ => None ;
    | exist _ (Some (skipped, endp)) Hfound
        with chr_is dquote (deref (next endp)) => {
        | false => Some (acc ++ skipped, next endp) ;
        | true => quoted_name (next endp) (acc ++ skipped ++ [dquote]) } }.
Proof.
  apply strchr_found in Hfound. destruct Hfound as (Hs & _ & Hn).
  apply (f_equal (@length ascii)) in Hs. rewrite length_app in Hs.
  destruct endp as [|e endp']; [contradiction|].
  destruct nextp as [|q rest]; simpl in *; lia.
Qed.

(** The unquoted branch:
<<
    while ( *nextp && *nextp != '.' && !isspace((unsigned char) *nextp))
    {
        if (!isalnum( *nextp) && *nextp != '_') return false;
        nextp++;
    }
>>
    with the characters stepped over and the new [nextp]. *)
Fixpoint unquoted_scan (nextp : cstring) : option (list ascii * cstring) :=
  match nextp with
  | [] => Some ([], nextp)
  | c :: rest =>
      if negb (chr_is NUL c) && negb (chr_is dot c) && negb (isspace c) then
        if negb (isalnum c) && negb (chr_is underscore c) then None
        else
          match unquoted_scan rest with
          | None => None
          | Some (name, nextp') => Some (c :: name, nextp')
          end
      else Some ([], nextp)
  end.

(** One name, quoted or not; [None] is [return false].  The scanned name
    is empty exactly when [curname == nextp]. *)
Definition scan_name (nextp : cstring) : option (NamePart * cstring) :=
  if chr_is dquote (deref nextp) then
    match quoted_name nextp [] with
    | None => None                       (* mismatched quotes *)
    | Some (name, nextp') => Some (mkNamePart name true, nextp')
    end
  else
    match unquoted_scan nextp with
    | None => None
    | Some ([], _) => None               (* empty unquoted name not allowed *)
    | Some (name, nextp') => Some (mkNamePart name false, nextp')
    end.

(** What one turn of the [do ... while (!done)] loop comes to. *)
Inductive turn : Type :=
| ReturnFalse
| Done (part : NamePart)                        (* done = true *)
| Another (part : NamePart) (nextp : cstring).  (* done remains false *)

Definition loop_body (nextp : cstring) : turn :=
  match scan_name nextp with
  | None => ReturnFalse
  | Some (part, nextp) =>
      let nextp := skip_space nextp in           (* skip trailing whitespace *)
      if chr_is dot (deref nextp) then
        Another part (skip_space (next nextp))   (* skip leading whitespace for next *)
      else if chr_is NUL (deref nextp) then Done part
      else ReturnFalse                           (* invalid syntax *)
  end.

(** Each turn that asks for another name has moved [nextp] forward. *)

Lemma skip_space_length p : (length (skip_space p) <= length p)%nat.
Proof.
  induction p as [|c rest IH]; simpl; [lia|].
  destruct (isspace c); simpl; lia.
Qed.

Lemma strchr_shorter s c skipped endp :
  strchr s c = Some (skipped, endp) ->
  (length (next endp) < length s)%nat.
Proof.
  intros H. apply strchr_found in H. destruct H as (-> & _ & Hn).
  destruct endp; [contradiction|].
  rewrite length_app. simpl. lia.
Qed.

Lemma quoted_name_length nextp acc name nextp' :
  quoted_name nextp acc = Some (name, nextp') ->
  (length nextp' < length nextp)%nat.
Proof.
  funelim (quoted_name nextp acc); intros Hq.
  - discriminate.
  - match goal with IH : forall _ _, _ = Some _ -> _ |- _ =>
      apply IH in Hq end.
    pose proof (strchr_shorter _ _ _ _ Hfound).
    destruct nextp; simpl in *; lia.
  - injection Hq as _ <-.
    pose proof (strchr_shorter _ _ _ _ Hfound).
    destruct nextp; simpl in *; lia.
Qed.

Lemma unquoted_scan_split nextp name nextp' :
  unquoted_scan nextp = Some (name, nextp') -> nextp = name ++ nextp'.
Proof.
  revert name nextp'.
  induction nextp as [|c rest IH]; intros name nextp' H; simpl in H.
  - injection H as <- <-. reflexivity.
  - destruct (negb (chr_is NUL c) && negb (chr_is dot c) && negb (isspace c)).
    + destruct (negb (isalnum c) && negb (chr_is underscore c));
        [discriminate|].
      destruct (unquoted_scan rest) as [[n q]|]; [|discriminate].
      injection H as <- <-. simpl. f_equal. apply IH. reflexivity.
    + injection H as <- <-. reflexivity.
Qed.

Lemma scan_name_length nextp part nextp' :
  scan_name nextp = Some (part, nextp') ->
  (length nextp' < length nextp)%nat.
Proof.
  unfold scan_name. destruct (chr_is dquote (deref nextp)).
  - destruct (quoted_name nextp []) as [[name q]|] eqn:Hq; [|discriminate].
    intros H. injection H as _ <-. eapply quoted_name_length; eassumption.
  - destruct (unquoted_scan nextp) as [[name q]|] eqn:Hu; [|discriminate].
    destruct name as [|c name]; [discriminate|].
    intros H. injection H as _ <-.
    apply unquoted_scan_split in Hu. subst nextp.
    simpl. rewrite length_app. lia.
Qed.

Lemma loop_body_length nextp part nextp' :
  loop_body nextp = Another part nextp' ->
  (length nextp' < length nextp)%nat.
Proof.
  unfold loop_body.
  destruct (scan_name nextp) as [[pt q]|] eqn:Hs; [|discriminate].
  apply scan_name_length in Hs.
  destruct (chr_is dot (deref (skip_space q))).
  - intros H. injection H as _ <-.
    pose proof (skip_space_length q).
    pose proof (skip_space_length (next (skip_space q))).
    destruct (skip_space q); simpl in *; lia.
  - destruct (chr_is NUL (deref (skip_space q))); discriminate.
Qed.

(** The loop:
<<
    do { ... } while (!done);
    return true;
>>
    with the names it went through. *)
Equations? names_loop (nextp : cstring) : option (list NamePart)
  by wf (length nextp) lt :=
  names_loop nextp with inspect (loop_body nextp) => {
    | exist _ ReturnFalse _ => None ;
    | exist _ (Done part) _ => Some [part] ;
    | exist _ (Another part nextp') Hturn with names_loop nextp' => {
        | None => None ;
        | Some parts => Some (part :: parts) } }.
Proof.
  eapply loop_body_length; eassumption.
Qed.

Definition parse_names (rawstring : cstring) : option (list NamePart) :=
  let nextp := skip_space rawstring in           (* skip leading whitespace *)
  if chr_is NUL (deref nextp) then Some []        (* allow empty string *)
  else names_loop nextp.

Definition ParseIdentifierString (rawstring : cstring) : bool :=
  match parse_names rawstring with
  | Some _ => true
  | None => false
  end.

(** [arrives p0 p]: the loop, entered with [nextp] at [p0], has read one
    or more names, each followed by a dot, and stands at [p] to read the
    name the last dot announced. *)
Inductive arrives : cstring -> cstring -> Prop :=
| arrives_once p0 part p :
    loop_body p0 = Another part p -> arrives p0 p
| arrives_later p0 part p1 p :
    loop_body p0 = Another part p1 -> arrives p1 p -> arrives p0 p.

(** An unquoted name as the parser accepts it, and the same for the name
    of a part that was not quoted. *)
Definition plain_name (name : list ascii) : Prop :=
  name <> [] /\ forallb name_char name = true.

Definition well_formed (part : NamePart) : Prop :=
  wasQuoted part = false -> plain_name (part_text part).

(** No character of [pre] opens a quoted name or ends the string. *)
Definition outside_quotes (pre : list ascii) : bool :=
  forallb (fun c => negb (chr_is dquote c) && negb (chr_is NUL c)) pre.

End Parser.
Import Parser.

(** ** DBMS_ASSERT.ENQUOTE_LITERAL *)

Module Literal.

Definition double_quote (q c : ascii) : list ascii :=
  if chr_is q c then [q; q] else [c].

(** Modelled from the spec: [quote_literal] of the host is not in the
    repository; the spec has it wrap the value in single quotes, double
    every embedded single quote and leave every other character as it
    is. *)
Definition quote_literal (value : text) : text :=
  squote :: flat_map (double_quote squote) value ++ [squote].

(** [DirectFunctionCall1(quote_literal, PG_GETARG_DATUM(0))] *)
Definition dbms_assert_enquote_literal (value : text) : text :=
  quote_literal value.

(** What lies between the first and the last character. *)
Definition interior (s : list ascii) : list ascii := removelast (tl s).

(** Every [q] of [s] is followed by a second [q] that belongs to it. *)
Fixpoint quotes_paired (q : ascii) (s : list ascii) : bool :=
  match s with
  | [] => true
  | c :: s' =>
      if chr_is q c then
        match s' with
        | [] => false
        | c' :: s'' => chr_is q c' && quotes_paired q s''
        end
      else quotes_paired q s'
  end.

(** Reading back: a doubled [q] stands for one [q]. *)
Fixpoint undouble (q : ascii) (s : list ascii) : list ascii :=
  match s with
  | [] => []
  | c :: s' =>
      if chr_is q c then
        match s' with
        | [] => [c]
        | _ :: s'' => c :: undouble q s''
        end
      else c :: undouble q s'
  end.

End Literal.
Import Literal.

(** ** DBMS_ASSERT.NOOP *)

(** [PG_RETURN_TEXT_P(TextPCopy(str))] *)
Definition dbms_assert_noop (str : text) : text := str.

(** ** DBMS_ASSERT.QUALIFIED_SQL_NAME *)

Definition dbms_assert_qualified_sql_name (arg : option text) : outcome :=
  match arg with
  | None => Raise ISNOT_QUALIFIED_SQL_NAME
  | Some qname =>
      if EMPTY_STR qname then Raise ISNOT_QUALIFIED_SQL_NAME
      else if negb (ParseIdentifierString (text_to_cstring qname))
      then Raise ISNOT_QUALIFIED_SQL_NAME
      else Return qname
  end.

(** ** The entry points that call into the host *)

Section Host.

Definition Oid := Z.
Definition InvalidOid : Oid := 0.
Definition OidIsValid (o : Oid) : bool := negb (o =? InvalidOid).

Inductive AclResult : Type :=
| ACLCHECK_OK
| ACLCHECK_NO_PRIV
| ACLCHECK_NOT_OWNER.

Definition acl_ok (r : AclResult) : bool :=
  match r with
  | ACLCHECK_OK => true
  | _ => false
  end.

(** The host's quoting and case folding. *)
Variable quote_ident : text -> text.
Variable lower : text -> text.

(** The host's name-list parser ([None] when it reports an error of its
    own), catalog lookups and privilege check. *)
Variable RangeVar : Type.
Variable stringToQualifiedNameList : cstring -> option (list cstring).
Variable GetSysCacheOid_NAMESPACENAME : cstring -> Oid.
Variable GetUserId : Oid.
Variable pg_namespace_aclcheck_USAGE : Oid -> Oid -> AclResult.
Variable makeRangeVarFromNameList : list cstring -> option RangeVar.
Variable RangeVarGetRelid : RangeVar -> bool -> Oid.

Definition dbms_assert_enquote_name (name : text) (loweralize : bool)
  : text :=
  let name := quote_ident name in
  if loweralize then lower name else name.

Definition dbms_assert_schema_name (arg : option text) : outcome :=
  match arg with
  | None => Raise INVALID_SCHEMA_NAME
  | Some sname =>
      if EMPTY_STR sname then Raise INVALID_SCHEMA_NAME
      else
        let nspname := text_to_cstring sname in
        match stringToQualifiedNameList nspname with
        | None => Fault HostError
        | Some [name] =>
            let namespaceId := GetSysCacheOid_NAMESPACENAME name in
            if negb (OidIsValid namespaceId) then Raise INVALID_SCHEMA_NAME
            else
              let aclresult :=
                pg_namespace_aclcheck_USAGE namespaceId GetUserId in
              if negb (acl_ok aclresult) then Raise INVALID_SCHEMA_NAME
              else Return sname
        | Some _ => Raise INVALID_SCHEMA_NAME  (* list_length(names) != 1 *)
        end
  end.

Definition dbms_assert_object_name (arg : option text) : outcome :=
  match arg with
  | None => Raise INVALID_OBJECT_NAME
  | Some str =>
      if EMPTY_STR str then Raise INVALID_OBJECT_NAME
      else
        let object_name := text_to_cstring str in
        match stringToQualifiedNameList object_name with
        | None => Fault HostError
        | Some names =>
            match makeRangeVarFromNameList names with
            | None => Fault HostError
            | Some rel =>
                let classId := RangeVarGetRelid rel true in
                if negb (OidIsValid classId) then Raise INVALID_OBJECT_NAME
                else Return str
            end
        end
  end.

End Host.

(** ** Shapes of input *)

Module Shapes.

(** No character of [body] is a double quote. *)
Definition no_dquote (body : list ascii) : bool :=
  forallb (fun c => negb (chr_is dquote c)) body.

(** No character of [t] is NUL. *)
Definition no_NUL (t : list ascii) : bool :=
  forallb (fun c => negb (chr_is NUL c)) t.

(** A name written as a quoted identifier: between double quotes, each
    double quote of the name written twice. *)
Definition quoted_form (name : list ascii) : list ascii :=
  dquote :: flat_map (double_quote dquote) name ++ [dquote].

(** Names written one after the other with a dot in between, [ws1] before
    each dot and [ws2] behind it. *)
Fixpoint join_names (ws1 ws2 : list ascii) (names : list (list ascii))
  : list ascii :=
  match names with
  | [] => []
  | name :: names' =>
      match names' with
      | [] => name
      | _ :: _ => name ++ ws1 ++ dot :: ws2 ++ join_names ws1 ws2 names'
      end
  end.

(** The characters an accepted input has outside quotes. *)
Definition unquoted_char (c : ascii) : bool :=
  name_char c || chr_is dot c || isspace c.

(** Where the scan of an unquoted name stops at once. *)
Definition stops (rest : cstring) : bool :=
  chr_is NUL (deref rest) || chr_is dot (deref rest) || isspace (deref rest).

(** Not a whitespace character. *)
Definition nonspace (c : ascii) : bool := negb (isspace c).

(** A padded pointer: the string with the whitespace behind it, or the
    end of both. *)
Definition padded (ws : list ascii) (q : cstring) : cstring :=
  match q with
  | [] => []
  | _ :: _ => q ++ ws
  end.

(** A name as it is written in a qualified name: a quoted one in its
    quoted form, an unquoted one as it is. *)
Definition written (part : NamePart) : list ascii :=
  if wasQuoted part then quoted_form (part_text part) else part_text part.

(** The names that can be written: a quoted one has no NUL, an unquoted
    one is not empty and made of letters, digits and underscores. *)
Definition writable (part : NamePart) : Prop :=
  if wasQuoted part then no_NUL (part_text part) = true
  else plain_name (part_text part).

(** Names written one after the other with a dot in between, [ws1] before
    each dot and [ws2] behind it. *)
Fixpoint join_parts (ws1 ws2 : list ascii) (parts : list NamePart)
  : list ascii :=
  match parts with
  | [] => []
  | part :: parts' =>
      match parts' with
      | [] => written part
      | _ :: _ =>
          written part ++ ws1 ++ dot :: ws2 ++ join_parts ws1 ws2 parts'
      end
  end.

End Shapes.
Import Shapes.

(** * Properties *)

(** ** Helper facts *)

Lemma EMPTY_STR_nil (t : text) : EMPTY_STR t = true <-> t = [].
Proof.
  unfold EMPTY_STR, VARSIZE, VARHDRSZ. rewrite Z.eqb_eq.
  destruct t; simpl length; split; intros H; try reflexivity;
    try discriminate; lia.
Qed.

Lemma EMPTY_STR_cons c (t : text) : EMPTY_STR (c :: t) = false.
Proof.
  destruct (EMPTY_STR (c :: t)) eqn:E; [|reflexivity].
  apply EMPTY_STR_nil in E. discriminate.
Qed.

Lemma payload_length (t : text) :
  VARSIZE t - VARHDRSZ = Z.of_nat (length t).
Proof. unfold VARSIZE. lia. Qed.

Lemma isspace_not_NUL c : isspace c = true -> chr_is NUL c = false.
Proof.
  intros H. destruct (chr_is NUL c) eqn:E; [|reflexivity].
  apply chr_is_true in E. subst c. discriminate.
Qed.

Lemma text_to_cstring_spaces (s : text) :
  forallb isspace s = true -> text_to_cstring s = s.
Proof.
  induction s as [|c s IH]; simpl; [reflexivity|].
  intros H. apply andb_true_iff in H. destruct H as [Hc Hs].
  rewrite (isspace_not_NUL _ Hc), (IH Hs). reflexivity.
Qed.

Lemma skip_space_spaces (s : cstring) :
  forallb isspace s = true -> skip_space s = [].
Proof.
  induction s as [|c s IH]; simpl; [reflexivity|].
  intros H. apply andb_true_iff in H. destruct H as [Hc Hs].
  rewrite Hc. exact (IH Hs).
Qed.

(** The unquoted branch of [check_sql_name] stays inside the payload and
    tests every byte of it. *)
Lemma plain_loop_all (cp : list ascii) :
  plain_loop cp (Z.of_nat (length cp)) = Some (forallb name_char cp).
Proof.
  induction cp as [|c cp IH].
  - reflexivity.
  - cbn [plain_loop length forallb].
    replace (0 <? Z.of_nat (S (length cp))) with true
      by (symmetry; apply Z.ltb_lt; lia).
    replace (Z.of_nat (S (length cp)) - 1) with (Z.of_nat (length cp))
      by lia.
    rewrite IH. unfold name_char.
    destruct (isalnum c), (chr_is underscore c); reflexivity.
Qed.

(** The quoted branch stays inside the payload when entered with a count
    that is not negative. *)
Lemma quoted_loop_in_bounds (cp : list ascii) (len : Z) :
  0 <= len < Z.of_nat (length cp) -> quoted_loop cp len <> None.
Proof.
  revert len. induction cp as [|c cp IH]; intros len H.
  - simpl in H. lia.
  - cbn [quoted_loop]. destruct (0 <? len) eqn:Hpos.
    + apply Z.ltb_lt in Hpos.
      destruct (chr_is dquote c).
      * destruct (len - 1 =? 0) eqn:Hz; [discriminate|].
        apply Z.eqb_neq in Hz. simpl negb. cbv iota.
        apply IH. simpl length in H. lia.
      * apply IH. simpl length in H. lia.
    + destruct (negb (chr_is dquote c)); discriminate.
Qed.

(** The payload that is one double quote is the only one on which
    [check_sql_name], called as the entry point calls it, leaves the
    payload. *)
Lemma check_sql_name_in_bounds (cp : list ascii) :
  cp <> [] -> cp <> [dquote] ->
  check_sql_name cp (Z.of_nat (length cp)) <> None.
Proof.
  destruct cp as [|c cp]; [contradiction|]. intros _ H.
  unfold check_sql_name. destruct (chr_is dquote c) eqn:Ec.
  - apply chr_is_true in Ec. subst c.
    destruct cp as [|c' cp]; [contradiction|].
    apply quoted_loop_in_bounds. simpl length. lia.
  - rewrite plain_loop_all. discriminate.
Qed.

(** ** DBMS_ASSERT.SIMPLE_SQL_NAME *)

(** C1: the claim has [simple_sql_name] accept a quoted string exactly when
    it ends with a quote, has at least two characters and every quote in
    between is one of a doubled pair.  The loop of [check_sql_name]
    counts an inner quote twice without stepping over its partner, so the
    last test looks at an earlier byte: the input with a doubled pair
    inside, dquote ab dquote dquote cd dquote, is rejected, as is the one
    with a single quote inside, dquote ab dquote cd dquote; and
    dquote a dquote dquote b, which does not end with a quote, is
    accepted. *)
Theorem simple_sql_name_doubled_quote_rejected :
  dbms_assert_simple_sql_name
    (Some (dquote :: str "ab" ++ [dquote; dquote] ++ str "cd" ++ [dquote]))
  = Raise ISNOT_SIMPLE_SQL_NAME
  /\ dbms_assert_simple_sql_name
       (Some (dquote :: str "ab" ++ [dquote] ++ str "cd" ++ [dquote]))
     = Raise ISNOT_SIMPLE_SQL_NAME
  /\ dbms_assert_simple_sql_name
       (Some (dquote :: str "a" ++ [dquote; dquote] ++ str "b"))
     = Return (dquote :: str "a" ++ [dquote; dquote] ++ str "b").
Proof. repeat split. Qed.

(** C3: for a string that does not begin with a double quote,
    [simple_sql_name] accepts exactly when the string is not empty and
    each character is an ASCII letter, a digit or an underscore; with a
    character outside that set the call fails with the simple-name
    error. *)
Theorem simple_sql_name_unquoted (s : text) :
  hd_error s <> Some dquote ->
  (dbms_assert_simple_sql_name (Some s) = Return s <->
   s <> [] /\ forallb name_char s = true)
  /\ (forallb name_char s = false ->
      dbms_assert_simple_sql_name (Some s) = Raise ISNOT_SIMPLE_SQL_NAME).
Proof.
  intros Hq. destruct s as [|c s].
  - split; [split|]; simpl.
    + discriminate.
    + intros [H _]. contradiction.
    + discriminate.
  - assert (Hc : chr_is dquote c = false).
    { apply chr_is_false. intros ->. apply Hq. reflexivity. }
    assert (Hrun : check_sql_name (c :: s) (Z.of_nat (length (c :: s)))
                   = Some (forallb name_char (c :: s))).
    { unfold check_sql_name. rewrite Hc. apply plain_loop_all. }
    unfold dbms_assert_simple_sql_name.
    rewrite EMPTY_STR_cons. cbv zeta. unfold VARDATA.
    rewrite payload_length, Hrun.
    destruct (forallb name_char (c :: s)); split; try split;
      try discriminate; try reflexivity.
    + intros _. split; [discriminate|reflexivity].
    + intros [_ H]. discriminate.
Qed.

Lemma simple_sql_name_unquoted_witness :
  hd_error (str "emp_1") <> Some dquote /\
  (dbms_assert_simple_sql_name (Some (str "emp_1")) = Return (str "emp_1")
   <-> str "emp_1" <> [] /\ forallb name_char (str "emp_1") = true).
Proof.
  split.
  - vm_compute. discriminate.
  - apply (simple_sql_name_unquoted (str "emp_1")).
    vm_compute. discriminate.
Defined.

(** C9: the claim has [check_sql_name] read only the [len] bytes it is
    given.  On the payload that is a single double quote the quoted
    branch starts with [len] at -1, skips its loop and tests the byte
    behind the payload. *)
Theorem check_sql_name_single_quote_reads_past_end :
  check_sql_name [dquote] 1 = None
  /\ dbms_assert_simple_sql_name (Some [dquote]) = Fault ReadPastEnd.
Proof. split; reflexivity. Qed.

(** ** Copy-through *)

(** C4: whenever [qualified_sql_name] or [simple_sql_name] succeeds, what
    it returns is the input string itself, byte for byte.  The parser
    works on the copy made by [text_to_cstring]; the datum is returned as
    it came. *)
Theorem accepted_value_is_input (arg : option text) (r : text) :
  dbms_assert_qualified_sql_name arg = Return r \/
  dbms_assert_simple_sql_name arg = Return r ->
  arg = Some r.
Proof.
  intros [H | H]; destruct arg as [s|]; try discriminate.
  - unfold dbms_assert_qualified_sql_name in H.
    destruct (EMPTY_STR s); [discriminate|].
    destruct (negb (ParseIdentifierString (text_to_cstring s)));
      [discriminate|].
    injection H as ->. reflexivity.
  - unfold dbms_assert_simple_sql_name in H.
    destruct (EMPTY_STR s); [discriminate|]. cbv zeta in H.
    destruct (check_sql_name _ _) as [[|]|]; try discriminate.
    injection H as ->. reflexivity.
Qed.

Lemma accepted_value_is_input_witness :
  let s := dquote :: str "a" ++ [dquote; dquote] ++ str "b" ++ [dquote] in
  dbms_assert_qualified_sql_name (Some s) = Return s /\ Some s = Some s.
Proof.
  intros s. split.
  - reflexivity.
  - apply (accepted_value_is_input (Some s) s). left. reflexivity.
Defined.

(** ** Guards *)

(** C6: on the empty string the parser succeeds with no name at all, and
    [qualified_sql_name] still rejects the empty string with the
    qualified-name error, at its guard for empty input. *)
Theorem empty_string_parses_but_is_rejected :
  parse_names [] = Some []
  /\ ParseIdentifierString (text_to_cstring []) = true
  /\ EMPTY_STR [] = true
  /\ dbms_assert_qualified_sql_name (Some []) = Raise ISNOT_QUALIFIED_SQL_NAME.
Proof. repeat split. Qed.

(** C7: each of the four guarded checks answers a null argument with its
    own error: the qualified-name, simple-name, schema-name and
    object-name error in turn, whatever the host's catalog holds. *)
Theorem null_input_rejected
  (RangeVar : Type)
  (stringToQualifiedNameList : cstring -> option (list cstring))
  (GetSysCacheOid_NAMESPACENAME : cstring -> Oid)
  (GetUserId : Oid)
  (pg_namespace_aclcheck_USAGE : Oid -> Oid -> AclResult)
  (makeRangeVarFromNameList : list cstring -> option RangeVar)
  (RangeVarGetRelid : RangeVar -> bool -> Oid) :
  dbms_assert_qualified_sql_name None = Raise ISNOT_QUALIFIED_SQL_NAME
  /\ dbms_assert_simple_sql_name None = Raise ISNOT_SIMPLE_SQL_NAME
  /\ dbms_assert_schema_name stringToQualifiedNameList
       GetSysCacheOid_NAMESPACENAME GetUserId pg_namespace_aclcheck_USAGE
       None = Raise INVALID_SCHEMA_NAME
  /\ dbms_assert_object_name RangeVar stringToQualifiedNameList
       makeRangeVarFromNameList RangeVarGetRelid
       None = Raise INVALID_OBJECT_NAME.
Proof. repeat split. Qed.

(** C10: a string that is not empty and holds whitespace only is accepted
    by [qualified_sql_name] and returned as it is: it passes the guard,
    and the parser skips the whitespace, stands at the end and succeeds
    with no name. *)
Theorem whitespace_only_accepted (s : text) :
  s <> [] ->
  forallb isspace s = true ->
  EMPTY_STR s = false
  /\ parse_names (text_to_cstring s) = Some []
  /\ dbms_assert_qualified_sql_name (Some s) = Return s.
Proof.
  intros Hne Hws.
  assert (He : EMPTY_STR s = false).
  { destruct s; [contradiction | apply EMPTY_STR_cons]. }
  assert (Hp : parse_names (text_to_cstring s) = Some []).
  { rewrite (text_to_cstring_spaces _ Hws). unfold parse_names.
    rewrite (skip_space_spaces _ Hws). reflexivity. }
  repeat split; try assumption.
  unfold dbms_assert_qualified_sql_name, ParseIdentifierString.
  rewrite He, Hp. reflexivity.
Qed.

Lemma whitespace_only_accepted_witness :
  dbms_assert_qualified_sql_name (Some (str "   ")) = Return (str "   ").
Proof.
  apply (whitespace_only_accepted (str "   ")).
  - vm_compute. discriminate.
  - vm_compute. reflexivity.
Defined.

(** ** DBMS_ASSERT.ENQUOTE_LITERAL *)

Lemma interior_quote_literal (x : text) :
  interior (quote_literal x) = flat_map (double_quote squote) x.
Proof.
  unfold interior, quote_literal. simpl tl. apply removelast_last.
Qed.

Lemma quotes_paired_doubled q (x : list ascii) :
  quotes_paired q (flat_map (double_quote q) x) = true.
Proof.
  induction x as [|c x IH]; [reflexivity|].
  simpl flat_map. unfold double_quote at 1.
  destruct (chr_is q c) eqn:E.
  - cbn [app quotes_paired].
    assert (Hq : chr_is q q = true) by (apply chr_is_true; reflexivity).
    rewrite Hq. exact IH.
  - cbn [app quotes_paired]. rewrite E. exact IH.
Qed.

Lemma undouble_doubled q (x : list ascii) :
  undouble q (flat_map (double_quote q) x) = x.
Proof.
  induction x as [|c x IH]; [reflexivity|].
  simpl flat_map. unfold double_quote at 1.
  destruct (chr_is q c) eqn:E.
  - cbn [app undouble].
    assert (Hq : chr_is q q = true) by (apply chr_is_true; reflexivity).
    rewrite Hq, IH. apply chr_is_true in E. subst c. reflexivity.
  - cbn [app undouble]. rewrite E, IH. reflexivity.
Qed.

(** C8: [enquote_literal x] is [x] between two single quotes with every
    single quote of [x] doubled and every other character, control
    characters and backslashes too, left as it is; so the result starts
    and ends with a single quote, every single quote between the two is
    one of a pair, reading the pairs back gives [x], and O'Brien becomes
    'O''Brien'. *)
Theorem enquote_literal_wraps_and_doubles (x : text) :
  dbms_assert_enquote_literal x
  = [squote] ++ flat_map (double_quote squote) x ++ [squote]
  /\ (forall c, c <> squote -> double_quote squote c = [c])
  /\ hd_error (dbms_assert_enquote_literal x) = Some squote
  /\ last (dbms_assert_enquote_literal x) NUL = squote
  /\ quotes_paired squote (interior (dbms_assert_enquote_literal x)) = true
  /\ undouble squote (interior (dbms_assert_enquote_literal x)) = x
  /\ dbms_assert_enquote_literal (str "O'Brien") = str "'O''Brien'".
Proof.
  unfold dbms_assert_enquote_literal.
  rewrite interior_quote_literal.
  repeat split.
  - intros c Hc. unfold double_quote.
    apply chr_is_false in Hc. rewrite Hc. reflexivity.
  - unfold quote_literal.
    change (squote :: ?l ++ [squote]) with ((squote :: l) ++ [squote]).
    apply last_last.
  - apply quotes_paired_doubled.
  - apply undouble_doubled.
Qed.

(** ** The name parser *)

Lemma names_loop_unfold (nextp : cstring) :
  names_loop nextp =
  match loop_body nextp with
  | ReturnFalse => None
  | Done part => Some [part]
  | Another part nextp' =>
      match names_loop nextp' with
      | None => None
      | Some parts => Some (part :: parts)
      end
  end.
Proof.
  funelim (names_loop nextp);
    match goal with E : loop_body _ = _ |- _ => rewrite E end;
    try reflexivity;
    match goal with
    | E : names_loop _ = Some _ |- _ => rewrite E
    | E : names_loop _ = None |- _ => rewrite E
    end;
    reflexivity.
Qed.

Lemma unquoted_scan_chars nextp name nextp' :
  unquoted_scan nextp = Some (name, nextp') ->
  forallb name_char name = true.
Proof.
  revert name nextp'.
  induction nextp as [|c rest IH]; intros name nextp' H; simpl in H.
  - injection H as <- <-. reflexivity.
  - destruct (negb (chr_is NUL c) && negb (chr_is dot c) && negb (isspace c)).
    + destruct (negb (isalnum c) && negb (chr_is underscore c)) eqn:Ec;
        [discriminate|].
      destruct (unquoted_scan rest) as [[n q]|] eqn:Er; [|discriminate].
      injection H as <- <-. simpl. rewrite (IH _ _ eq_refl).
      unfold name_char.
      destruct (isalnum c), (chr_is underscore c);
        try discriminate; reflexivity.
    + injection H as <- <-. reflexivity.
Qed.

Lemma scan_name_well_formed nextp part nextp' :
  scan_name nextp = Some (part, nextp') -> well_formed part.
Proof.
  unfold scan_name. destruct (chr_is dquote (deref nextp)).
  - destruct (quoted_name nextp []) as [[name q]|]; [|discriminate].
    intros H. injection H as <- _. intros Hq. discriminate.
  - destruct (unquoted_scan nextp) as [[name q]|] eqn:Hu; [|discriminate].
    destruct name as [|c name]; [discriminate|].
    intros H. injection H as <- _. intros _. split; [discriminate|].
    eapply unquoted_scan_chars; eassumption.
Qed.

Lemma loop_body_well_formed nextp :
  match loop_body nextp with
  | ReturnFalse => True
  | Done part | Another part _ => well_formed part
  end.
Proof.
  unfold loop_body.
  destruct (scan_name nextp) as [[part q]|] eqn:Hs; [|exact I].
  apply scan_name_well_formed in Hs.
  destruct (chr_is dot (deref (skip_space q))); [assumption|].
  destruct (chr_is NUL (deref (skip_space q))); [assumption|exact I].
Qed.

Lemma names_loop_well_formed nextp parts :
  names_loop nextp = Some parts -> Forall well_formed parts.
Proof.
  revert parts.
  induction nextp as [nextp IH] using (induction_ltof1 _ (@length ascii)).
  intros parts H. rewrite names_loop_unfold in H.
  pose proof (loop_body_well_formed nextp) as Hwf.
  destruct (loop_body nextp) as [|part|part q] eqn:Hb.
  - discriminate.
  - injection H as <-. constructor; [assumption|constructor].
  - destruct (names_loop q) as [ps|] eqn:Hq; [|discriminate].
    injection H as <-. constructor; [assumption|].
    apply (IH q); [|exact Hq].
    unfold ltof. eapply loop_body_length; eassumption.
Qed.

(** C2 (as the code has it): on every string the parser accepts, each
    unquoted name has at least one character, all of them letters,
    digits or underscores; a quoted name may be empty, and the input
    that is two double quotes is accepted as one quoted name with no
    text. *)
Theorem parsed_unquoted_names_not_empty :
  (forall (raw : cstring) (parts : list NamePart) (part : NamePart),
      parse_names raw = Some parts ->
      In part parts ->
      wasQuoted part = false ->
      part_text part <> [] /\ forallb name_char (part_text part) = true)
  /\ parse_names [dquote; dquote] = Some [mkNamePart [] true].
Proof.
  split; [|reflexivity].
  intros raw parts part Hp Hin Hu.
  unfold parse_names in Hp.
  destruct (chr_is NUL (deref (skip_space raw))).
  - injection Hp as <-. destruct Hin.
  - apply names_loop_well_formed in Hp.
    rewrite Forall_forall in Hp. exact (Hp part Hin Hu).
Qed.

Lemma parsed_unquoted_names_not_empty_witness :
  parse_names (str "schema.table")
  = Some [mkNamePart (str "schema") false; mkNamePart (str "table") false]
  /\ str "table" <> [].
Proof.
  split; [reflexivity|].
  apply (proj1 parsed_unquoted_names_not_empty (str "schema.table")
           [mkNamePart (str "schema") false; mkNamePart (str "table") false]
           (mkNamePart (str "table") false)).
  - reflexivity.
  - simpl. right. left. reflexivity.
  - reflexivity.
Defined.

(** The claim of C2 fails on the input that is two double quotes: the
    parser succeeds, [qualified_sql_name] accepts, and the one name parsed
    is quoted and has no text.  The same holds with the empty quoted
    segment behind a dot, as in a. followed by two double quotes. *)
Lemma empty_quoted_name_accepted :
  (exists part : NamePart,
      parse_names (text_to_cstring [dquote; dquote]) = Some [part]
      /\ wasQuoted part = true
      /\ part_text part = []
      /\ ParseIdentifierString (text_to_cstring [dquote; dquote]) = true
      /\ dbms_assert_qualified_sql_name (Some [dquote; dquote])
         = Return [dquote; dquote])
  /\ parse_names (text_to_cstring (str "a." ++ [dquote; dquote]))
     = Some [mkNamePart (str "a") false; mkNamePart [] true].
Proof.
  split; [exists (mkNamePart [] true)|]; repeat split.
Qed.

(** *** Empty segments and trailing dots *)

(** Where a name should begin, a dot or the end of the string is an empty
    unquoted name. *)
Lemma scan_name_nothing (nextp : cstring) :
  chr_is dot (deref nextp) = true \/ chr_is NUL (deref nextp) = true ->
  scan_name nextp = None.
Proof.
  intros H.
  assert (Hq : chr_is dquote (deref nextp) = false).
  { destruct H as [H | H]; apply chr_is_true in H; rewrite H; reflexivity. }
  unfold scan_name. rewrite Hq.
  destruct nextp as [|c rest]; [reflexivity|].
  simpl in H. simpl unquoted_scan.
  destruct H as [H | H]; rewrite H;
    rewrite ?andb_false_r; reflexivity.
Qed.

Lemma loop_body_nothing (nextp : cstring) :
  chr_is dot (deref nextp) = true \/ chr_is NUL (deref nextp) = true ->
  loop_body nextp = ReturnFalse.
Proof.
  intros H. unfold loop_body. rewrite (scan_name_nothing _ H). reflexivity.
Qed.

Lemma arrives_entered p0 p :
  arrives p0 p -> chr_is NUL (deref p0) = false.
Proof.
  intros H.
  assert (exists part p1, loop_body p0 = Another part p1) as (part & p1 & Hb)
    by (destruct H; eauto).
  destruct (chr_is NUL (deref p0)) eqn:E; [|reflexivity].
  rewrite loop_body_nothing in Hb by (right; exact E). discriminate.
Qed.

(** A failure at a name the loop arrives at is the failure of the loop. *)
Lemma arrives_failure p0 p :
  arrives p0 p -> names_loop p = None -> names_loop p0 = None.
Proof.
  induction 1 as [p0 part p Hb | p0 part p1 p Hb _ IH]; intros Hp;
    rewrite (names_loop_unfold p0), Hb.
  - rewrite Hp. reflexivity.
  - rewrite (IH Hp). reflexivity.
Qed.

Lemma arrives_nothing (raw p : cstring) :
  arrives (skip_space raw) p ->
  chr_is dot (deref p) = true \/ chr_is NUL (deref p) = true ->
  parse_names raw = None.
Proof.
  intros Ha Hp. unfold parse_names.
  rewrite (arrives_entered _ _ Ha).
  apply (arrives_failure _ _ Ha).
  rewrite names_loop_unfold, (loop_body_nothing _ Hp). reflexivity.
Qed.

Lemma qualified_sql_name_parse_failure (s : text) :
  parse_names (text_to_cstring s) = None ->
  dbms_assert_qualified_sql_name (Some s) = Raise ISNOT_QUALIFIED_SQL_NAME.
Proof.
  intros H. unfold dbms_assert_qualified_sql_name, ParseIdentifierString.
  rewrite H. destruct (EMPTY_STR s); reflexivity.
Qed.

Lemma text_to_cstring_app (pre : list ascii) (t : text) :
  forallb (fun c => negb (chr_is NUL c)) pre = true ->
  text_to_cstring (pre ++ t) = pre ++ text_to_cstring t.
Proof.
  induction pre as [|c pre IH]; simpl; [reflexivity|].
  intros H. apply andb_true_iff in H. destruct H as [Hc Hn].
  apply negb_true_iff in Hc. rewrite Hc, (IH Hn). reflexivity.
Qed.

Lemma outside_quotes_no_NUL pre :
  outside_quotes pre = true ->
  forallb (fun c => negb (chr_is NUL c)) pre = true.
Proof.
  unfold outside_quotes. rewrite !forallb_forall. intros H c Hc.
  specialize (H c Hc). apply andb_true_iff in H. tauto.
Qed.

Lemma spaces_no_NUL ws :
  forallb isspace ws = true ->
  forallb (fun c => negb (chr_is NUL c)) ws = true.
Proof.
  rewrite !forallb_forall. intros H c Hc.
  rewrite (isspace_not_NUL _ (H c Hc)). reflexivity.
Qed.

Lemma outside_quotes_app pre1 pre2 :
  outside_quotes (pre1 ++ pre2) = true -> outside_quotes pre2 = true.
Proof.
  unfold outside_quotes. rewrite forallb_app.
  intros H. apply andb_true_iff in H. tauto.
Qed.

Lemma skip_space_app_spaces ws (rest : cstring) :
  forallb isspace ws = true -> skip_space (ws ++ rest) = skip_space rest.
Proof.
  induction ws as [|c ws IH]; simpl; [reflexivity|].
  intros H. apply andb_true_iff in H. destruct H as [Hc Hs].
  rewrite Hc. exact (IH Hs).
Qed.

(** Scanning an unquoted name does not go past a dot. *)
Lemma unquoted_scan_upto_dot pre (rest : cstring) name q :
  unquoted_scan (pre ++ dot :: rest) = Some (name, q) ->
  exists pre', pre = name ++ pre' /\ q = pre' ++ dot :: rest.
Proof.
  revert name q. induction pre as [|c pre IH]; intros name q H.
  - simpl in H. injection H as <- <-. exists []. split; reflexivity.
  - simpl in H.
    destruct (negb (chr_is NUL c) && negb (chr_is dot c) && negb (isspace c)).
    + destruct (negb (isalnum c) && negb (chr_is underscore c));
        [discriminate|].
      destruct (unquoted_scan (pre ++ dot :: rest)) as [[n q']|] eqn:E;
        [|discriminate].
      injection H as <- <-.
      destruct (IH _ _ eq_refl) as (pre' & -> & ->).
      exists pre'. split; reflexivity.
    + injection H as <- <-. exists (c :: pre). split; reflexivity.
Qed.

(** Neither does skipping whitespace. *)
Lemma skip_space_upto_dot pre (rest : cstring) :
  exists ws pre',
    pre = ws ++ pre'
    /\ skip_space (pre ++ dot :: rest) = pre' ++ dot :: rest.
Proof.
  induction pre as [|c pre (ws & pre' & Hp & Hs)].
  - exists [], []. split; reflexivity.
  - simpl. destruct (isspace c).
    + exists (c :: ws), pre'. rewrite Hp at 1. split; [reflexivity|exact Hs].
    + exists [], (c :: pre). split; reflexivity.
Qed.

(** The loop fails on every string in which, outside quotes, a dot is
    followed, after whitespace at most, by a second dot or by the end. *)
Lemma names_loop_empty_segment pre ws (tail : cstring) :
  outside_quotes pre = true ->
  forallb isspace ws = true ->
  chr_is dot (deref tail) = true \/ chr_is NUL (deref tail) = true ->
  names_loop (pre ++ dot :: ws ++ tail) = None.
Proof.
  intros Hpre Hws Htail.
  assert (Hstuck : names_loop (skip_space (ws ++ tail)) = None).
  { rewrite (skip_space_app_spaces _ _ Hws).
    assert (Hk : skip_space tail = tail).
    { destruct tail as [|c tail]; [reflexivity|]. simpl in *.
      destruct Htail as [H | H]; apply chr_is_true in H; subst c;
        reflexivity. }
    rewrite Hk, names_loop_unfold, (loop_body_nothing _ Htail).
    reflexivity. }
  revert Hpre.
  induction pre as [pre IH] using (induction_ltof1 _ (@length ascii)).
  intros Hpre. rewrite names_loop_unfold.
  destruct pre as [|c pre].
  { rewrite loop_body_nothing by (left; reflexivity). reflexivity. }
  unfold loop_body, scan_name.
  assert (Hc : chr_is dquote (deref ((c :: pre) ++ dot :: ws ++ tail))
               = false).
  { simpl. simpl in Hpre. apply andb_true_iff in Hpre.
    destruct Hpre as [Hc _]. apply andb_true_iff in Hc.
    destruct Hc as [Hc _]. apply negb_true_iff in Hc. exact Hc. }
  rewrite Hc.
  destruct (unquoted_scan ((c :: pre) ++ dot :: ws ++ tail))
    as [[name q]|] eqn:Hscan; [|reflexivity].
  destruct name as [|c0 name]; [reflexivity|].
  apply unquoted_scan_upto_dot in Hscan.
  destruct Hscan as (pre1 & Hsplit & ->).
  destruct (skip_space_upto_dot pre1 (ws ++ tail))
    as (sp & pre2 & Hsplit2 & ->).
  assert (Hpre2 : outside_quotes pre2 = true).
  { rewrite Hsplit, Hsplit2 in Hpre.
    apply outside_quotes_app in Hpre.
    apply outside_quotes_app in Hpre. exact Hpre. }
  assert (Hlen : (length pre2 < length (c :: pre))%nat).
  { rewrite Hsplit, Hsplit2. simpl. rewrite !length_app. lia. }
  destruct pre2 as [|d pre2].
  - simpl. rewrite Hstuck. reflexivity.
  - simpl deref. destruct (chr_is dot d) eqn:Hd.
    + simpl next.
      destruct (skip_space_upto_dot pre2 (ws ++ tail))
        as (sp' & pre3 & Hsplit3 & ->).
      rewrite (IH pre3); [reflexivity| |].
      * unfold ltof. rewrite Hsplit3 in Hlen. simpl in Hlen.
        rewrite length_app in Hlen. simpl. lia.
      * rewrite Hsplit3 in Hpre2. simpl in Hpre2.
        apply andb_true_iff in Hpre2. destruct Hpre2 as [_ Hpre2].
        apply outside_quotes_app in Hpre2. exact Hpre2.
    + simpl in Hpre2. apply andb_true_iff in Hpre2.
      destruct Hpre2 as [Hd' _]. apply andb_true_iff in Hd'.
      destruct Hd' as [_ Hn]. apply negb_true_iff in Hn.
      rewrite Hn. reflexivity.
Qed.

Lemma parse_names_empty_segment pre ws (tail : cstring) :
  outside_quotes pre = true ->
  forallb isspace ws = true ->
  chr_is dot (deref tail) = true \/ chr_is NUL (deref tail) = true ->
  parse_names (pre ++ dot :: ws ++ tail) = None.
Proof.
  intros Hpre Hws Htail. unfold parse_names.
  destruct (skip_space_upto_dot pre (ws ++ tail))
    as (sp & pre' & Hsplit & ->).
  assert (Hpre' : outside_quotes pre' = true).
  { rewrite Hsplit in Hpre. apply outside_quotes_app in Hpre. exact Hpre. }
  assert (Hn : chr_is NUL (deref (pre' ++ dot :: ws ++ tail)) = false).
  { destruct pre' as [|c pre']; [reflexivity|]. simpl in *.
    apply andb_true_iff in Hpre'. destruct Hpre' as [Hc _].
    apply andb_true_iff in Hc. destruct Hc as [_ Hc].
    apply negb_true_iff in Hc. exact Hc. }
  rewrite Hn. apply names_loop_empty_segment; assumption.
Qed.

(** * Further properties *)

(** ** [check_sql_name] and DBMS_ASSERT.SIMPLE_SQL_NAME *)





(** X2: on every argument other than the payload that is one double
    quote, [simple_sql_name] either returns its argument or fails with
    the simple-name error: it reads no byte behind the payload and
    raises nothing else. *)
Theorem simple_sql_name_outcomes (arg : option text) :
  arg <> Some [dquote] ->
  dbms_assert_simple_sql_name arg = Raise ISNOT_SIMPLE_SQL_NAME
  \/ exists s, arg = Some s /\ dbms_assert_simple_sql_name arg = Return s.
Proof.
  intros Hne. destruct arg as [s|]; [|left; reflexivity].
  unfold dbms_assert_simple_sql_name.
  destruct s as [|c s]; [left; reflexivity|].
  rewrite EMPTY_STR_cons. cbv zeta. unfold VARDATA.
  rewrite payload_length.
  pose proof (check_sql_name_in_bounds (c :: s)) as Hin.
  destruct (check_sql_name (c :: s) (Z.of_nat (length (c :: s))))
    as [[|]|].
  - right. exists (c :: s). split; reflexivity.
  - left. reflexivity.
  - exfalso. apply Hin; [discriminate| |reflexivity].
    intros E. apply Hne. rewrite E. reflexivity.
Qed.

Lemma simple_sql_name_outcomes_witness :
  Some (str "emp-1") <> Some [dquote]
  /\ (dbms_assert_simple_sql_name (Some (str "emp-1"))
      = Raise ISNOT_SIMPLE_SQL_NAME
      \/ exists s, Some (str "emp-1") = Some s
                   /\ dbms_assert_simple_sql_name (Some (str "emp-1"))
                      = Return s).
Proof.
  split; [discriminate|].
  apply (simple_sql_name_outcomes (Some (str "emp-1"))). discriminate.
Defined.

(** ** Quoted names in [ParseIdentifierString] *)

Lemma quoted_name_unfold (nextp : cstring) (acc : list ascii) :
  quoted_name nextp acc =
  match strchr (next nextp) dquote with
  | None => None
  | Some (skipped, endp) =>
      if chr_is dquote (deref (next endp))
      then quoted_name (next endp) (acc ++ skipped ++ [dquote])
      else Some (acc ++ skipped, next endp)
  end.
Proof.
  funelim (quoted_name nextp acc);
    match goal with E : strchr _ _ = _ |- _ => rewrite E end;
    try reflexivity;
    match goal with E : chr_is dquote _ = _ |- _ => rewrite E end;
    reflexivity.
Qed.

Lemma strchr_none (body : list ascii) :
  no_dquote body = true -> strchr body dquote = None.
Proof.
  induction body as [|c body IH]; [reflexivity|].
  simpl. intros H. apply andb_true_iff in H. destruct H as [Hc Hb].
  apply negb_true_iff in Hc. rewrite Hc, (IH Hb). reflexivity.
Qed.

(** Stepping over a character that is not a quote. *)
Lemma quoted_name_step (x c : ascii) (s : cstring) (acc : list ascii) :
  chr_is dquote c = false ->
  quoted_name (x :: c :: s) acc = quoted_name (c :: s) (acc ++ [c]).
Proof.
  intros Hc. rewrite (quoted_name_unfold (x :: c :: s)).
  rewrite (quoted_name_unfold (c :: s)).
  simpl next. simpl strchr. rewrite Hc.
  destruct (strchr s dquote) as [[skipped endp]|]; [|reflexivity].
  rewrite <- !app_assoc. reflexivity.
Qed.

(** The loop of the quoted branch reads a doubled quote as one quote and
    stops at the first quote that is not doubled. *)
Lemma quoted_name_doubled (name : list ascii) :
  forall (x : ascii) (acc : list ascii) (rest : cstring),
    chr_is dquote (deref rest) = false ->
    quoted_name (x :: flat_map (double_quote dquote) name ++ dquote :: rest)
      acc
    = Some (acc ++ name, rest).
Proof.
  induction name as [|c name IH]; intros x acc rest Hrest.
  - simpl. rewrite quoted_name_unfold. simpl.
    rewrite Hrest, app_nil_r. reflexivity.
  - simpl flat_map. unfold double_quote at 1.
    destruct (chr_is dquote c) eqn:Hc.
    + apply chr_is_true in Hc. subst c.
      rewrite quoted_name_unfold. simpl.
      rewrite (IH dquote (acc ++ [dquote]) rest Hrest).
      rewrite <- app_assoc. reflexivity.
    + simpl app. rewrite (quoted_name_step _ _ _ _ Hc).
      rewrite (IH c (acc ++ [c]) rest Hrest).
      rewrite <- app_assoc. reflexivity.
Qed.

Lemma text_to_cstring_id (t : text) :
  no_NUL t = true -> text_to_cstring t = t.
Proof.
  intros H. rewrite <- (app_nil_r t) at 1.
  rewrite (text_to_cstring_app t [] H). apply app_nil_r.
Qed.

Lemma no_NUL_quoted_form (name : list ascii) :
  no_NUL name = true -> no_NUL (quoted_form name) = true.
Proof.
  intros H. unfold quoted_form, no_NUL in *.
  simpl. rewrite forallb_app. simpl. rewrite andb_true_r.
  induction name as [|c name IH]; [reflexivity|].
  simpl in H. apply andb_true_iff in H. destruct H as [Hc Hn].
  simpl. rewrite forallb_app, (IH Hn), andb_true_r.
  unfold double_quote. destruct (chr_is dquote c); simpl.
  - reflexivity.
  - rewrite Hc. reflexivity.
Qed.

Lemma qualified_sql_name_parsed (s : text) (parts : list NamePart) :
  s <> [] ->
  parse_names (text_to_cstring s) = Some parts ->
  dbms_assert_qualified_sql_name (Some s) = Return s.
Proof.
  intros Hne Hp. unfold dbms_assert_qualified_sql_name, ParseIdentifierString.
  destruct s as [|c s]; [contradiction|].
  rewrite EMPTY_STR_cons, Hp. reflexivity.
Qed.

(** X3: a name without NUL, written as a quoted identifier (between
    double quotes, its own double quotes doubled), is parsed as one
    quoted name whose text is the name itself, whatever characters it
    has, and [qualified_sql_name] accepts it. *)
Theorem quoted_form_parses_back (name : list ascii) :
  no_NUL name = true ->
  parse_names (text_to_cstring (quoted_form name))
  = Some [mkNamePart name true]
  /\ dbms_assert_qualified_sql_name (Some (quoted_form name))
     = Return (quoted_form name).
Proof.
  intros Hn.
  assert (Hp : parse_names (text_to_cstring (quoted_form name))
               = Some [mkNamePart name true]).
  { rewrite (text_to_cstring_id _ (no_NUL_quoted_form _ Hn)).
    unfold parse_names, quoted_form. simpl skip_space. simpl deref.
    change (chr_is NUL dquote) with false. cbv iota.
    rewrite names_loop_unfold. unfold loop_body, scan_name.
    simpl deref. change (chr_is dquote dquote) with true. cbv iota.
    rewrite (quoted_name_doubled name dquote [] []) by reflexivity.
    reflexivity. }
  split; [exact Hp|].
  apply (qualified_sql_name_parsed _ [mkNamePart name true]);
    [unfold quoted_form; discriminate | exact Hp].
Qed.

Lemma quoted_form_parses_back_witness :
  no_NUL (str "a" ++ [dquote] ++ str ".b c") = true
  /\ parse_names
       (text_to_cstring (quoted_form (str "a" ++ [dquote] ++ str ".b c")))
     = Some [mkNamePart (str "a" ++ [dquote] ++ str ".b c") true].
Proof.
  split; [reflexivity|].
  apply (quoted_form_parses_back (str "a" ++ [dquote] ++ str ".b c")).
  reflexivity.
Defined.

Lemma no_dquote_text_to_cstring (body : text) :
  no_dquote body = true -> no_dquote (text_to_cstring body) = true.
Proof.
  induction body as [|c body IH]; [reflexivity|].
  simpl. intros H. apply andb_true_iff in H. destruct H as [Hc Hb].
  destruct (chr_is NUL c); [reflexivity|].
  simpl. rewrite Hc. exact (IH Hb).
Qed.

(** X4: an input that opens a quoted name and has no second double quote
    fails with the qualified-name error (mismatched quotes). *)
Theorem unterminated_quote_rejected (body : text) :
  no_dquote body = true ->
  dbms_assert_qualified_sql_name (Some (dquote :: body))
  = Raise ISNOT_QUALIFIED_SQL_NAME.
Proof.
  intros Hb. apply qualified_sql_name_parse_failure.
  simpl text_to_cstring. change (chr_is NUL dquote) with false. cbv iota.
  unfold parse_names. simpl skip_space. simpl deref.
  change (chr_is NUL dquote) with false. cbv iota.
  rewrite names_loop_unfold. unfold loop_body, scan_name.
  simpl deref. change (chr_is dquote dquote) with true. cbv iota.
  rewrite quoted_name_unfold. simpl next.
  rewrite (strchr_none _ (no_dquote_text_to_cstring _ Hb)). reflexivity.
Qed.

Lemma unterminated_quote_rejected_witness :
  no_dquote (str "My Table") = true
  /\ dbms_assert_qualified_sql_name (Some (dquote :: str "My Table"))
     = Raise ISNOT_QUALIFIED_SQL_NAME.
Proof.
  split; [reflexivity|].
  apply (unterminated_quote_rejected (str "My Table")). reflexivity.
Defined.

(** ** Unquoted names in [ParseIdentifierString] *)

Lemma name_char_plain c :
  name_char c = true ->
  chr_is NUL c = false /\ chr_is dot c = false /\ isspace c = false
  /\ chr_is dquote c = false.
Proof.
  destruct c as [[] [] [] [] [] [] [] []]; vm_compute; intros H;
    try discriminate H; repeat split.
Qed.

Lemma unquoted_scan_stops (rest : cstring) :
  stops rest = true -> unquoted_scan rest = Some ([], rest).
Proof.
  unfold stops. destruct rest as [|c rest]; [reflexivity|].
  simpl. intros H.
  destruct (chr_is NUL c), (chr_is dot c), (isspace c);
    try discriminate H; reflexivity.
Qed.

Lemma unquoted_scan_name (name : list ascii) (rest : cstring) :
  forallb name_char name = true ->
  stops rest = true ->
  unquoted_scan (name ++ rest) = Some (name, rest).
Proof.
  intros Hn Hr. induction name as [|c name IH].
  - apply unquoted_scan_stops. exact Hr.
  - simpl in Hn. apply andb_true_iff in Hn. destruct Hn as [Hc Hn].
    destruct (name_char_plain _ Hc) as (H0 & Hd & Hs & _).
    simpl. rewrite H0, Hd, Hs. simpl.
    unfold name_char in Hc.
    destruct (isalnum c), (chr_is underscore c); try discriminate Hc;
      simpl; rewrite (IH Hn); reflexivity.
Qed.

Lemma plain_name_head (name : list ascii) (rest : cstring) :
  plain_name name ->
  chr_is dquote (deref (name ++ rest)) = false
  /\ chr_is NUL (deref (name ++ rest)) = false
  /\ skip_space (name ++ rest) = name ++ rest.
Proof.
  intros [Hne Hn]. destruct name as [|c name]; [contradiction|].
  simpl in Hn. apply andb_true_iff in Hn. destruct Hn as [Hc _].
  destruct (name_char_plain _ Hc) as (H0 & _ & Hs & Hq).
  simpl. rewrite Hs. repeat split; assumption.
Qed.

Lemma scan_name_plain (name : list ascii) (rest : cstring) :
  plain_name name ->
  stops rest = true ->
  scan_name (name ++ rest) = Some (mkNamePart name false, rest).
Proof.
  intros Hp Hr. unfold scan_name.
  destruct (plain_name_head name rest Hp) as (-> & _ & _).
  destruct Hp as [Hne Hn].
  rewrite (unquoted_scan_name _ _ Hn Hr).
  destruct name; [contradiction|reflexivity].
Qed.

Lemma stops_spaces_then (ws : list ascii) (c : ascii) (rest : cstring) :
  forallb isspace ws = true ->
  chr_is NUL c || chr_is dot c || isspace c = true ->
  stops (ws ++ c :: rest) = true.
Proof.
  unfold stops. destruct ws as [|w ws]; simpl.
  - intros _ H. exact H.
  - intros H _. apply andb_true_iff in H. destruct H as [-> _].
    apply orb_true_r.
Qed.

Lemma loop_body_name_dot (name ws : list ascii) (rest : cstring) :
  plain_name name ->
  forallb isspace ws = true ->
  loop_body (name ++ ws ++ dot :: rest)
  = Another (mkNamePart name false) (skip_space rest).
Proof.
  intros Hp Hws. unfold loop_body.
  rewrite (scan_name_plain _ _ Hp)
    by (apply stops_spaces_then; [exact Hws | reflexivity]).
  cbv zeta. rewrite (skip_space_app_spaces _ _ Hws). reflexivity.
Qed.

Lemma loop_body_name_end (name ws : list ascii) :
  plain_name name ->
  forallb isspace ws = true ->
  loop_body (name ++ ws) = Done (mkNamePart name false).
Proof.
  intros Hp Hws. unfold loop_body.
  rewrite (scan_name_plain _ _ Hp).
  - cbv zeta. rewrite (skip_space_spaces _ Hws). reflexivity.
  - unfold stops. destruct ws as [|w ws]; [reflexivity|].
    simpl in *. apply andb_true_iff in Hws. destruct Hws as [-> _].
    apply orb_true_r.
Qed.

Lemma join_names_cons ws1 ws2 name name' names :
  join_names ws1 ws2 (name :: name' :: names)
  = name ++ ws1 ++ dot :: ws2 ++ join_names ws1 ws2 (name' :: names).
Proof. reflexivity. Qed.

Lemma join_names_head ws1 ws2 name names :
  exists rest, join_names ws1 ws2 (name :: names) = name ++ rest.
Proof.
  destruct names as [|name' names].
  - exists []. simpl. rewrite app_nil_r. reflexivity.
  - eexists. apply join_names_cons.
Qed.

Lemma names_loop_join (ws1 ws2 : list ascii) (names : list (list ascii)) :
  names <> [] ->
  Forall plain_name names ->
  forallb isspace ws1 = true ->
  forallb isspace ws2 = true ->
  names_loop (join_names ws1 ws2 names)
  = Some (map (fun name => mkNamePart name false) names).
Proof.
  intros Hne Hall H1 H2.
  induction Hall as [|name names Hp Hall IH]; [contradiction|].
  rewrite names_loop_unfold. destruct names as [|name' names].
  - simpl join_names.
    pose proof (loop_body_name_end name [] Hp eq_refl) as Hb.
    rewrite app_nil_r in Hb. rewrite Hb. reflexivity.
  - rewrite join_names_cons, (loop_body_name_dot _ _ _ Hp H1).
    rewrite (skip_space_app_spaces _ _ H2).
    destruct (join_names_head ws1 ws2 name' names) as (rest & Hj).
    inversion Hall as [|? ? Hp' _]; subst.
    destruct (plain_name_head name' rest Hp') as (_ & _ & Hs).
    rewrite Hj, Hs, <- Hj.
    rewrite IH by discriminate. reflexivity.
Qed.

Lemma no_NUL_app (t1 t2 : list ascii) :
  no_NUL (t1 ++ t2) = no_NUL t1 && no_NUL t2.
Proof. apply forallb_app. Qed.

Lemma no_NUL_name (name : list ascii) :
  forallb name_char name = true -> no_NUL name = true.
Proof.
  unfold no_NUL. rewrite !forallb_forall. intros H c Hc.
  destruct (name_char_plain _ (H c Hc)) as (-> & _). reflexivity.
Qed.

Lemma no_NUL_spaces (ws : list ascii) :
  forallb isspace ws = true -> no_NUL ws = true.
Proof. exact (spaces_no_NUL ws). Qed.

Lemma no_NUL_join (ws1 ws2 : list ascii) (names : list (list ascii)) :
  Forall plain_name names ->
  forallb isspace ws1 = true ->
  forallb isspace ws2 = true ->
  no_NUL (join_names ws1 ws2 names) = true.
Proof.
  intros Hall H1 H2.
  induction Hall as [|name names [_ Hn] Hall IH]; [reflexivity|].
  destruct names as [|name' names].
  - simpl. apply no_NUL_name. exact Hn.
  - rewrite join_names_cons.
    change (name ++ ws1 ++ dot :: ws2 ++ ?r)
      with (name ++ ws1 ++ [dot] ++ ws2 ++ r).
    rewrite !no_NUL_app, IH, (no_NUL_name _ Hn).
    rewrite (no_NUL_spaces _ H1), (no_NUL_spaces _ H2). reflexivity.
Qed.

(** X5: unquoted names (each not empty, of letters, digits and
    underscores) written with dots in between, whitespace allowed on
    either side of each dot, are parsed as exactly these names, in
    order, and [qualified_sql_name] accepts the string. *)
Theorem joined_names_parse_back
  (ws1 ws2 : list ascii) (names : list (list ascii)) :
  names <> [] ->
  Forall plain_name names ->
  forallb isspace ws1 = true ->
  forallb isspace ws2 = true ->
  parse_names (text_to_cstring (join_names ws1 ws2 names))
  = Some (map (fun name => mkNamePart name false) names)
  /\ dbms_assert_qualified_sql_name (Some (join_names ws1 ws2 names))
     = Return (join_names ws1 ws2 names).
Proof.
  intros Hne Hall H1 H2.
  assert (Hp : parse_names (text_to_cstring (join_names ws1 ws2 names))
               = Some (map (fun name => mkNamePart name false) names)).
  { rewrite (text_to_cstring_id _ (no_NUL_join _ _ _ Hall H1 H2)).
    unfold parse_names.
    destruct names as [|name names]; [contradiction|].
    destruct (join_names_head ws1 ws2 name names) as (rest & Hj).
    inversion Hall as [|? ? Hp _]; subst.
    destruct (plain_name_head name rest Hp) as (_ & H0 & Hs).
    rewrite Hj, Hs, H0, <- Hj.
    apply names_loop_join; assumption. }
  split; [exact Hp|].
  refine (qualified_sql_name_parsed _ _ _ Hp). clear Hp.
  destruct names as [|name names]; [contradiction|].
  destruct (join_names_head ws1 ws2 name names) as (rest & ->).
  inversion Hall as [|? ? [Hn _] _]; subst.
  destruct name; [contradiction|discriminate].
Qed.

Lemma joined_names_parse_back_witness :
  parse_names
    (text_to_cstring
       (join_names (str " ") (str "  ") [str "db"; str "schema_1"; str "t"]))
  = Some [mkNamePart (str "db") false; mkNamePart (str "schema_1") false;
          mkNamePart (str "t") false].
Proof.
  apply (joined_names_parse_back (str " ") (str "  ")
           [str "db"; str "schema_1"; str "t"]).
  - discriminate.
  - repeat constructor; discriminate.
  - reflexivity.
  - reflexivity.
Defined.




(** X7: an input that does not begin with a double quote and that
    [simple_sql_name] accepts is accepted by [qualified_sql_name] too,
    where it is parsed as one unquoted name, the input itself. *)
Theorem simple_name_is_qualified_name (s : text) :
  hd_error s <> Some dquote ->
  dbms_assert_simple_sql_name (Some s) = Return s ->
  parse_names (text_to_cstring s) = Some [mkNamePart s false]
  /\ dbms_assert_qualified_sql_name (Some s) = Return s.
Proof.
  intros Hq Hs.
  assert (Hp : plain_name s).
  { destruct s as [|c s]; [discriminate Hs|].
    split; [discriminate|].
    unfold dbms_assert_simple_sql_name in Hs.
    rewrite EMPTY_STR_cons in Hs. cbv zeta in Hs. unfold VARDATA in Hs.
    rewrite payload_length in Hs. unfold check_sql_name in Hs.
    assert (Hc : chr_is dquote c = false).
    { apply chr_is_false. intros ->. apply Hq. reflexivity. }
    rewrite Hc, plain_loop_all in Hs.
    destruct (forallb name_char (c :: s)); [reflexivity|discriminate]. }
  assert (Hparse : parse_names (text_to_cstring s)
                   = Some [mkNamePart s false]).
  { rewrite (text_to_cstring_id s) by (apply no_NUL_name, Hp).
    unfold parse_names.
    destruct (plain_name_head s [] Hp) as (_ & H0 & Hsk).
    rewrite app_nil_r in H0, Hsk. rewrite Hsk, H0.
    exact (names_loop_join [] [] [s] ltac:(discriminate)
             (Forall_cons _ Hp (Forall_nil _)) eq_refl eq_refl). }
  split; [exact Hparse|].
  refine (qualified_sql_name_parsed _ _ _ Hparse).
  destruct Hp as [Hne _]. exact Hne.
Qed.

Lemma simple_name_is_qualified_name_witness :
  dbms_assert_simple_sql_name (Some (str "emp_1")) = Return (str "emp_1")
  /\ dbms_assert_qualified_sql_name (Some (str "emp_1"))
     = Return (str "emp_1").
Proof.
  split; [reflexivity|].
  apply (simple_name_is_qualified_name (str "emp_1")).
  - discriminate.
  - reflexivity.
Defined.

(** ** Whitespace and the number of names *)

Lemma skip_space_split (raw : cstring) :
  exists ws,
    raw = ws ++ skip_space raw /\ forallb isspace ws = true.
Proof.
  induction raw as [|c raw (ws & Hr & Hws)].
  - exists []. split; reflexivity.
  - simpl. destruct (isspace c) eqn:Hc.
    + exists (c :: ws). simpl. rewrite Hc, Hws. rewrite Hr at 1.
      split; reflexivity.
    + exists []. split; reflexivity.
Qed.

Lemma names_loop_nonempty (nextp : cstring) : names_loop nextp <> Some [].
Proof.
  rewrite names_loop_unfold.
  destruct (loop_body nextp) as [|part|part q]; try discriminate.
  destruct (names_loop q); discriminate.
Qed.

Lemma no_NUL_deref (p : cstring) :
  no_NUL p = true -> chr_is NUL (deref p) = true -> p = [].
Proof.
  destruct p as [|c p]; [reflexivity|]. simpl.
  intros H E. rewrite E in H. discriminate.
Qed.

(** X8: on an input without NUL the parser succeeds with no name at all
    exactly when the input is whitespace only (the empty input
    included). *)
Theorem no_names_iff_blank (s : text) :
  no_NUL s = true ->
  (parse_names (text_to_cstring s) = Some [] <-> forallb isspace s = true).
Proof.
  intros Hn. rewrite (text_to_cstring_id _ Hn). split.
  - unfold parse_names. intros H.
    destruct (skip_space_split s) as (ws & Hs & Hws).
    destruct (chr_is NUL (deref (skip_space s))) eqn:E.
    + assert (Hk : no_NUL (skip_space s) = true).
      { rewrite Hs, no_NUL_app in Hn. apply andb_true_iff in Hn. tauto. }
      rewrite (no_NUL_deref _ Hk E), app_nil_r in Hs. rewrite Hs.
      exact Hws.
    + exfalso. exact (names_loop_nonempty _ H).
  - intros H. unfold parse_names. rewrite (skip_space_spaces _ H).
    reflexivity.
Qed.

Lemma no_names_iff_blank_witness :
  no_NUL (str " a ") = true
  /\ (parse_names (text_to_cstring (str " a ")) = Some []
      <-> forallb isspace (str " a ") = true).
Proof.
  split; [reflexivity|].
  apply (no_names_iff_blank (str " a ")). reflexivity.
Defined.

(** ** Inputs without quotes *)

Lemma scan_name_unquoted (p : cstring) (part : NamePart) (q : cstring) :
  outside_quotes p = true ->
  scan_name p = Some (part, q) ->
  exists name,
    part = mkNamePart name false /\ plain_name name /\ p = name ++ q.
Proof.
  intros Hp. unfold scan_name.
  assert (Hq : chr_is dquote (deref p) = false).
  { destruct p as [|c p]; [reflexivity|]. simpl in *.
    apply andb_true_iff in Hp. destruct Hp as [Hc _].
    apply andb_true_iff in Hc. destruct Hc as [Hc _].
    apply negb_true_iff in Hc. exact Hc. }
  rewrite Hq.
  destruct (unquoted_scan p) as [[name r]|] eqn:Hu; [|discriminate].
  destruct name as [|c name]; [discriminate|].
  intros H. injection H as <- <-. exists (c :: name).
  split; [reflexivity|]. split.
  - split; [discriminate|]. eapply unquoted_scan_chars; eassumption.
  - apply unquoted_scan_split. exact Hu.
Qed.

Lemma name_unquoted_chars (name : list ascii) :
  forallb name_char name = true ->
  forallb unquoted_char name = true /\ filter nonspace name = name.
Proof.
  induction name as [|c name IH]; [split; reflexivity|].
  simpl. intros H. apply andb_true_iff in H. destruct H as [Hc Hn].
  destruct (IH Hn) as [-> ->].
  destruct (name_char_plain _ Hc) as (_ & _ & Hs & _).
  unfold unquoted_char, nonspace. rewrite Hc, Hs. split; reflexivity.
Qed.

Lemma spaces_unquoted_chars (ws : list ascii) :
  forallb isspace ws = true ->
  forallb unquoted_char ws = true /\ filter nonspace ws = [].
Proof.
  induction ws as [|c ws IH]; [split; reflexivity|].
  simpl. intros H. apply andb_true_iff in H. destruct H as [Hc Hn].
  destruct (IH Hn) as [-> ->].
  unfold unquoted_char, nonspace. rewrite Hc.
  rewrite orb_true_r. split; reflexivity.
Qed.

Lemma deref_dot (p : cstring) :
  chr_is dot (deref p) = true -> p = dot :: next p.
Proof.
  destruct p as [|c p]; [discriminate|]. simpl. intros H.
  apply chr_is_true in H. subst c. reflexivity.
Qed.

(** What the loop accepts of an input without quotes. *)
Lemma names_loop_unquoted (p : cstring) :
  forall parts,
    outside_quotes p = true ->
    names_loop p = Some parts ->
    forallb unquoted_char p = true
    /\ filter nonspace p = join_names [] [] (map part_text parts)
    /\ Forall (fun part => wasQuoted part = false) parts.
Proof.
  induction p as [p IH] using (induction_ltof1 _ (@length ascii)).
  intros parts Hp H. rewrite names_loop_unfold in H.
  destruct (loop_body p) as [|part|part q3] eqn:Hb; [discriminate| |].
  - (* the last name *)
    injection H as <-. unfold loop_body in Hb.
    destruct (scan_name p) as [[pt q]|] eqn:Hs; [|discriminate].
    destruct (scan_name_unquoted _ _ _ Hp Hs) as (name & -> & Hn & Hsplit).
    destruct (skip_space_split q) as (ws & Hq & Hws).
    cbv zeta in Hb.
    destruct (chr_is dot (deref (skip_space q))); [discriminate|].
    destruct (chr_is NUL (deref (skip_space q))) eqn:E; [|discriminate].
    injection Hb as <-.
    assert (Hk : no_NUL (skip_space q) = true).
    { apply outside_quotes_no_NUL. rewrite Hsplit, Hq in Hp.
      apply outside_quotes_app in Hp. apply outside_quotes_app in Hp.
      exact Hp. }
    rewrite (no_NUL_deref _ Hk E), app_nil_r in Hq.
    rewrite Hsplit, Hq.
    destruct (name_unquoted_chars name (proj2 Hn)) as [Ha Hf].
    destruct (spaces_unquoted_chars ws Hws) as [Ha' Hf'].
    rewrite forallb_app, filter_app, Ha, Ha', Hf, Hf', app_nil_r.
    repeat split. repeat constructor.
  - (* a name, a dot and more names *)
    destruct (names_loop q3) as [ps|] eqn:Hps; [|discriminate].
    injection H as <-.
    pose proof (loop_body_length _ _ _ Hb) as Hlen.
    unfold loop_body in Hb.
    destruct (scan_name p) as [[pt q]|] eqn:Hs; [|discriminate].
    destruct (scan_name_unquoted _ _ _ Hp Hs) as (name & -> & Hn & Hsplit).
    destruct (skip_space_split q) as (ws & Hq & Hws).
    cbv zeta in Hb.
    destruct (chr_is dot (deref (skip_space q))) eqn:Hd.
    2:{ destruct (chr_is NUL (deref (skip_space q))); discriminate. }
    injection Hb as <- <-.
    apply deref_dot in Hd.
    destruct (skip_space_split (next (skip_space q))) as (ws' & Hq' & Hws').
    set (q3 := skip_space (next (skip_space q))) in *.
    assert (Hdec : p = name ++ ws ++ dot :: ws' ++ q3).
    { rewrite Hsplit, Hq, Hd, Hq' at 1. reflexivity. }
    assert (Hp3 : outside_quotes q3 = true).
    { rewrite Hdec in Hp.
      apply outside_quotes_app in Hp. apply outside_quotes_app in Hp.
      apply (outside_quotes_app [dot]) in Hp.
      apply outside_quotes_app in Hp. exact Hp. }
    destruct (IH q3 Hlen ps Hp3 Hps) as (Ha3 & Hf3 & Hu3).
    destruct (name_unquoted_chars name (proj2 Hn)) as [Ha Hf].
    destruct (spaces_unquoted_chars ws Hws) as [Ha' Hf'].
    destruct (spaces_unquoted_chars ws' Hws') as [Ha'' Hf''].
    rewrite Hdec.
    change (name ++ ws ++ dot :: ws' ++ q3)
      with (name ++ ws ++ [dot] ++ ws' ++ q3).
    rewrite !forallb_app, !filter_app, Ha, Ha', Ha'', Ha3, Hf, Hf', Hf'', Hf3.
    split; [reflexivity|]. split; [|constructor; [reflexivity|exact Hu3]].
    destruct ps as [|p0 ps]; [exfalso; exact (names_loop_nonempty _ Hps)|].
    reflexivity.
Qed.

Lemma parse_names_unquoted (raw : cstring) (parts : list NamePart) :
  outside_quotes raw = true ->
  parse_names raw = Some parts ->
  forallb unquoted_char raw = true
  /\ filter nonspace raw = join_names [] [] (map part_text parts)
  /\ Forall (fun part => wasQuoted part = false) parts.
Proof.
  intros Hp H. unfold parse_names in H.
  destruct (skip_space_split raw) as (ws & Hr & Hws).
  destruct (spaces_unquoted_chars ws Hws) as [Ha Hf].
  assert (Hk : outside_quotes (skip_space raw) = true).
  { rewrite Hr in Hp. apply outside_quotes_app in Hp. exact Hp. }
  destruct (chr_is NUL (deref (skip_space raw))) eqn:E.
  - injection H as <-.
    rewrite (no_NUL_deref _ (outside_quotes_no_NUL _ Hk) E), app_nil_r in Hr.
    rewrite Hr, Ha, Hf. repeat split. constructor.
  - destruct (names_loop_unquoted _ _ Hk H) as (Ha' & Hf' & Hu).
    rewrite Hr, forallb_app, filter_app, Ha, Hf, Ha', Hf'.
    repeat split. exact Hu.
Qed.

Lemma qualified_sql_name_accepted (s : text) :
  dbms_assert_qualified_sql_name (Some s) = Return s ->
  exists parts, parse_names (text_to_cstring s) = Some parts.
Proof.
  unfold dbms_assert_qualified_sql_name, ParseIdentifierString.
  destruct (EMPTY_STR s); [discriminate|].
  destruct (parse_names (text_to_cstring s)) as [parts|]; [|discriminate].
  intros _. exists parts. reflexivity.
Qed.

(** X9: an input without double quotes and without NUL that
    [qualified_sql_name] accepts consists of letters, digits,
    underscores, dots and whitespace only. *)
Theorem accepted_unquoted_input_chars (s : text) :
  outside_quotes s = true ->
  dbms_assert_qualified_sql_name (Some s) = Return s ->
  forallb unquoted_char s = true.
Proof.
  intros Hp H. destruct (qualified_sql_name_accepted _ H) as (parts & Hparse).
  rewrite (text_to_cstring_id _ (outside_quotes_no_NUL _ Hp)) in Hparse.
  apply (parse_names_unquoted _ _ Hp Hparse).
Qed.

Lemma accepted_unquoted_input_chars_witness :
  outside_quotes (str "db . t_1") = true
  /\ dbms_assert_qualified_sql_name (Some (str "db . t_1"))
     = Return (str "db . t_1")
  /\ forallb unquoted_char (str "db . t_1") = true.
Proof.
  split; [reflexivity|]. split; [reflexivity|].
  apply (accepted_unquoted_input_chars (str "db . t_1")); reflexivity.
Defined.

(** X10: when the parser succeeds on an input without double quotes and
    without NUL, every name it has parsed is unquoted, and the names
    written with a dot in between are the input with its whitespace
    taken out. *)
Theorem parsed_names_rejoin (s : text) (parts : list NamePart) :
  outside_quotes s = true ->
  parse_names (text_to_cstring s) = Some parts ->
  filter nonspace s = join_names [] [] (map part_text parts)
  /\ Forall (fun part => wasQuoted part = false) parts.
Proof.
  intros Hp Hparse.
  rewrite (text_to_cstring_id _ (outside_quotes_no_NUL _ Hp)) in Hparse.
  apply (parse_names_unquoted _ _ Hp Hparse).
Qed.

Lemma parsed_names_rejoin_witness :
  filter nonspace (str " db . t_1 ") = str "db.t_1".
Proof.
  apply (parsed_names_rejoin (str " db . t_1 ")
           [mkNamePart (str "db") false; mkNamePart (str "t_1") false]);
    reflexivity.
Defined.

(** ** Whitespace around the input *)

Lemma isspace_not_dquote c : isspace c = true -> chr_is dquote c = false.
Proof.
  intros H. destruct (chr_is dquote c) eqn:E; [|reflexivity].
  apply chr_is_true in E. subst c. discriminate.
Qed.

Lemma spaces_stop (ws : list ascii) :
  forallb isspace ws = true ->
  stops ws = true /\ chr_is dquote (deref ws) = false.
Proof.
  unfold stops. destruct ws as [|w ws]; [split; reflexivity|].
  simpl. intros H. apply andb_true_iff in H. destruct H as [Hw _].
  rewrite Hw, (isspace_not_dquote _ Hw), orb_true_r. split; reflexivity.
Qed.

Lemma strchr_app_spaces (s : cstring) (ws : list ascii) :
  forallb isspace ws = true ->
  strchr (s ++ ws) dquote =
  match strchr s dquote with
  | None => None
  | Some (skipped, endp) => Some (skipped, endp ++ ws)
  end.
Proof.
  intros Hws. induction s as [|c s IH].
  - simpl. induction ws as [|w ws IHw]; [reflexivity|].
    simpl in *. apply andb_true_iff in Hws. destruct Hws as [Hw Hws].
    rewrite (isspace_not_dquote _ Hw), (IHw Hws). reflexivity.
  - simpl. destruct (chr_is dquote c); [reflexivity|].
    rewrite IH. destruct (strchr s dquote) as [[sk e]|]; reflexivity.
Qed.

Lemma quoted_name_app_spaces (ws : list ascii) :
  forallb isspace ws = true ->
  forall (p : cstring) (acc : list ascii),
    p <> [] ->
    quoted_name (p ++ ws) acc =
    match quoted_name p acc with
    | None => None
    | Some (name, rest) => Some (name, rest ++ ws)
    end.
Proof.
  intros Hws p.
  induction p as [p IH] using (induction_ltof1 _ (@length ascii)).
  intros acc Hne. destruct p as [|x p]; [contradiction|].
  rewrite (quoted_name_unfold ((x :: p) ++ ws)).
  rewrite (quoted_name_unfold (x :: p)).
  simpl next. rewrite (strchr_app_spaces _ _ Hws).
  destruct (strchr p dquote) as [[skipped endp]|] eqn:Hfound;
    [|reflexivity].
  pose proof (strchr_shorter _ _ _ _ Hfound) as Hlen.
  apply strchr_found in Hfound. destruct Hfound as (_ & _ & Hn).
  destruct endp as [|e endp]; [contradiction|]. simpl next in *.
  destruct endp as [|e' endp].
  - simpl. destruct (spaces_stop ws Hws) as [_ ->]. reflexivity.
  - simpl deref. destruct (chr_is dquote e'); [|reflexivity].
    apply (IH (e' :: endp)); [|discriminate].
    unfold ltof. simpl in *. lia.
Qed.

Lemma unquoted_scan_app_spaces (ws : list ascii) (p : cstring) :
  forallb isspace ws = true ->
  unquoted_scan (p ++ ws) =
  match unquoted_scan p with
  | None => None
  | Some (name, rest) => Some (name, rest ++ ws)
  end.
Proof.
  intros Hws. induction p as [|c p IH].
  - simpl. apply unquoted_scan_stops. apply (spaces_stop ws Hws).
  - simpl.
    destruct (negb (chr_is NUL c) && negb (chr_is dot c) && negb (isspace c));
      [|reflexivity].
    destruct (negb (isalnum c) && negb (chr_is underscore c));
      [reflexivity|].
    rewrite IH. destruct (unquoted_scan p) as [[name rest]|]; reflexivity.
Qed.

Lemma scan_name_app_spaces (ws : list ascii) (p : cstring) :
  forallb isspace ws = true ->
  scan_name (p ++ ws) =
  match scan_name p with
  | None => None
  | Some (part, rest) => Some (part, rest ++ ws)
  end.
Proof.
  intros Hws. destruct p as [|c p].
  - simpl app. unfold scan_name.
    destruct (spaces_stop ws Hws) as [Hs ->].
    rewrite (unquoted_scan_stops _ Hs). reflexivity.
  - unfold scan_name. simpl deref. destruct (chr_is dquote c).
    + rewrite (quoted_name_app_spaces ws Hws (c :: p)) by discriminate.
      destruct (quoted_name (c :: p) []) as [[name rest]|]; reflexivity.
    + rewrite (unquoted_scan_app_spaces ws (c :: p) Hws).
      destruct (unquoted_scan (c :: p)) as [[[|n name] rest]|]; reflexivity.
Qed.

Lemma skip_space_app (ws : list ascii) (r : cstring) :
  forallb isspace ws = true ->
  skip_space (r ++ ws) =
  match skip_space r with
  | [] => []
  | c :: r' => (c :: r') ++ ws
  end.
Proof.
  intros Hws. induction r as [|c r IH].
  - simpl. apply skip_space_spaces. exact Hws.
  - simpl. destruct (isspace c); [exact IH|reflexivity].
Qed.

Lemma loop_body_app_spaces (ws : list ascii) (p : cstring) :
  forallb isspace ws = true ->
  loop_body (p ++ ws) =
  match loop_body p with
  | ReturnFalse => ReturnFalse
  | Done part => Done part
  | Another part q => Another part (padded ws q)
  end.
Proof.
  intros Hws. unfold loop_body. rewrite (scan_name_app_spaces ws p Hws).
  destruct (scan_name p) as [[part r]|]; [|reflexivity].
  cbv zeta. rewrite (skip_space_app ws r Hws).
  destruct (skip_space r) as [|c r1]; [reflexivity|].
  simpl deref. destruct (chr_is dot c).
  - simpl next. rewrite (skip_space_app ws r1 Hws).
    destruct (skip_space r1); reflexivity.
  - destruct (chr_is NUL c); reflexivity.
Qed.

Lemma names_loop_app_spaces (ws : list ascii) :
  forallb isspace ws = true ->
  forall p : cstring, names_loop (padded ws p) = names_loop p.
Proof.
  intros Hws p.
  induction p as [p IH] using (induction_ltof1 _ (@length ascii)).
  destruct p as [|c p]; [reflexivity|]. unfold padded.
  rewrite (names_loop_unfold ((c :: p) ++ ws)).
  rewrite (names_loop_unfold (c :: p)).
  rewrite (loop_body_app_spaces ws (c :: p) Hws).
  destruct (loop_body (c :: p)) as [|part|part q] eqn:Hb; try reflexivity.
  rewrite (IH q); [reflexivity|].
  unfold ltof. eapply loop_body_length. exact Hb.
Qed.

Lemma parse_names_padded (ws1 ws2 : list ascii) (raw : cstring) :
  forallb isspace ws1 = true ->
  forallb isspace ws2 = true ->
  parse_names (ws1 ++ raw ++ ws2) = parse_names raw.
Proof.
  intros H1 H2. unfold parse_names.
  rewrite (skip_space_app_spaces _ _ H1), (skip_space_app ws2 raw H2).
  destruct (skip_space raw) as [|c r]; [reflexivity|].
  simpl deref. destruct (chr_is NUL c); [reflexivity|].
  exact (names_loop_app_spaces ws2 H2 (c :: r)).
Qed.

Lemma text_to_cstring_app_spaces (s : text) (ws : list ascii) :
  forallb isspace ws = true ->
  exists ws',
    forallb isspace ws' = true
    /\ text_to_cstring (s ++ ws) = text_to_cstring s ++ ws'.
Proof.
  intros Hws. induction s as [|c s (ws' & Hws' & IH)].
  - exists ws. split; [exact Hws|].
    simpl. apply text_to_cstring_spaces. exact Hws.
  - simpl. destruct (chr_is NUL c).
    + exists []. split; reflexivity.
    + exists ws'. split; [exact Hws'|]. rewrite IH. reflexivity.
Qed.

(** X11: whitespace before and behind the input changes nothing for the
    parser: the padded input has the same verdict and the same names,
    and for an input that is not empty [qualified_sql_name] accepts the
    padded input exactly when it accepts the input. *)
Theorem surrounding_whitespace_ignored (ws1 ws2 : list ascii) (s : text) :
  forallb isspace ws1 = true ->
  forallb isspace ws2 = true ->
  parse_names (text_to_cstring (ws1 ++ s ++ ws2))
  = parse_names (text_to_cstring s)
  /\ (s <> [] ->
      (dbms_assert_qualified_sql_name (Some (ws1 ++ s ++ ws2))
       = Return (ws1 ++ s ++ ws2)
       <-> dbms_assert_qualified_sql_name (Some s) = Return s)).
Proof.
  intros H1 H2.
  assert (Hp : parse_names (text_to_cstring (ws1 ++ s ++ ws2))
               = parse_names (text_to_cstring s)).
  { rewrite (text_to_cstring_app ws1) by (apply spaces_no_NUL, H1).
    destruct (text_to_cstring_app_spaces s ws2 H2) as (ws' & Hws' & ->).
    apply parse_names_padded; assumption. }
  split; [exact Hp|]. intros Hne.
  assert (Hne' : ws1 ++ s ++ ws2 <> []).
  { destruct ws1; [|discriminate]. destruct s; [contradiction|discriminate]. }
  unfold dbms_assert_qualified_sql_name, ParseIdentifierString.
  rewrite Hp.
  destruct s as [|c s]; [contradiction|].
  destruct (ws1 ++ (c :: s) ++ ws2) as [|d t] eqn:E; [contradiction|].
  rewrite !EMPTY_STR_cons.
  destruct (parse_names (text_to_cstring (c :: s))); simpl;
    split; intros H; try reflexivity; discriminate.
Qed.

Lemma surrounding_whitespace_ignored_witness :
  parse_names (text_to_cstring (str "  " ++ str "a.b" ++ str " "))
  = parse_names (text_to_cstring (str "a.b")).
Proof.
  apply (surrounding_whitespace_ignored (str "  ") (str " ") (str "a.b"));
    reflexivity.
Defined.

(** ** Writing a qualified name and parsing it *)

Lemma stops_not_dquote (rest : cstring) :
  stops rest = true -> chr_is dquote (deref rest) = false.
Proof.
  unfold stops. intros H.
  destruct (chr_is dquote (deref rest)) eqn:E; [|reflexivity].
  apply chr_is_true in E. rewrite E in H. discriminate.
Qed.

Lemma scan_name_written (part : NamePart) (rest : cstring) :
  writable part ->
  stops rest = true ->
  scan_name (written part ++ rest) = Some (part, rest).
Proof.
  destruct part as [name [|]]; unfold writable, written; simpl; intros Hw Hr.
  - unfold scan_name, quoted_form. simpl deref.
    change (chr_is dquote dquote) with true. cbv iota.
    change ((dquote :: flat_map (double_quote dquote) name ++ [dquote])
            ++ rest)
      with (dquote :: (flat_map (double_quote dquote) name ++ [dquote])
                      ++ rest).
    rewrite <- app_assoc. simpl app.
    rewrite (quoted_name_doubled name dquote [] rest (stops_not_dquote _ Hr)).
    reflexivity.
  - apply scan_name_plain; assumption.
Qed.

Lemma written_head (part : NamePart) (rest : cstring) :
  writable part ->
  chr_is NUL (deref (written part ++ rest)) = false
  /\ skip_space (written part ++ rest) = written part ++ rest
  /\ written part ++ rest <> [].
Proof.
  destruct part as [name [|]]; unfold writable, written; simpl; intros Hw.
  - repeat split. discriminate.
  - destruct (plain_name_head name rest Hw) as (_ & H0 & Hs).
    repeat split; try assumption.
    destruct Hw as [Hne _]. destruct name; [contradiction|discriminate].
Qed.

Lemma join_parts_cons ws1 ws2 part part' parts :
  join_parts ws1 ws2 (part :: part' :: parts)
  = written part ++ ws1 ++ dot :: ws2 ++ join_parts ws1 ws2 (part' :: parts).
Proof. reflexivity. Qed.

Lemma join_parts_head ws1 ws2 part parts :
  exists rest, join_parts ws1 ws2 (part :: parts) = written part ++ rest.
Proof.
  destruct parts as [|part' parts].
  - exists []. simpl. rewrite app_nil_r. reflexivity.
  - eexists. apply join_parts_cons.
Qed.

Lemma names_loop_join_parts (ws1 ws2 : list ascii) (parts : list NamePart) :
  parts <> [] ->
  Forall writable parts ->
  forallb isspace ws1 = true ->
  forallb isspace ws2 = true ->
  names_loop (join_parts ws1 ws2 parts) = Some parts.
Proof.
  intros Hne Hall H1 H2.
  induction Hall as [|part parts Hw Hall IH]; [contradiction|].
  rewrite names_loop_unfold. unfold loop_body.
  destruct parts as [|part' parts].
  - simpl join_parts.
    pose proof (scan_name_written part [] Hw eq_refl) as Hs.
    rewrite app_nil_r in Hs. rewrite Hs. reflexivity.
  - rewrite join_parts_cons.
    rewrite (scan_name_written part _ Hw)
      by (apply stops_spaces_then; [exact H1 | reflexivity]).
    cbv zeta. rewrite (skip_space_app_spaces _ _ H1).
    change (skip_space (dot :: ?r)) with (dot :: r).
    unfold deref, next. cbn [hd tl].
    change (chr_is dot dot) with true. cbv iota.
    rewrite (skip_space_app_spaces _ _ H2).
    destruct (join_parts_head ws1 ws2 part' parts) as (rest & Hj).
    inversion Hall as [|? ? Hw' _]; subst.
    destruct (written_head part' rest Hw') as (_ & Hs & _).
    rewrite Hj, Hs, <- Hj.
    rewrite IH by discriminate. reflexivity.
Qed.

Lemma no_NUL_written (part : NamePart) :
  writable part -> no_NUL (written part) = true.
Proof.
  destruct part as [name [|]]; unfold writable, written; simpl; intros Hw.
  - apply no_NUL_quoted_form. exact Hw.
  - apply no_NUL_name. apply Hw.
Qed.

Lemma no_NUL_join_parts (ws1 ws2 : list ascii) (parts : list NamePart) :
  Forall writable parts ->
  forallb isspace ws1 = true ->
  forallb isspace ws2 = true ->
  no_NUL (join_parts ws1 ws2 parts) = true.
Proof.
  intros Hall H1 H2.
  induction Hall as [|part parts Hw Hall IH]; [reflexivity|].
  destruct parts as [|part' parts].
  - simpl. apply no_NUL_written. exact Hw.
  - rewrite join_parts_cons.
    change (written part ++ ws1 ++ dot :: ws2 ++ ?r)
      with (written part ++ ws1 ++ [dot] ++ ws2 ++ r).
    rewrite !no_NUL_app, IH, (no_NUL_written _ Hw).
    rewrite (no_NUL_spaces _ H1), (no_NUL_spaces _ H2). reflexivity.
Qed.

(** X12: names, quoted and unquoted ones mixed, written one after the
    other with dots in between (a quoted name between double quotes with
    its own double quotes doubled, whitespace allowed on either side of
    a dot) are parsed back as exactly these names, each with its text
    and its being quoted or not, and [qualified_sql_name] accepts the
    string. *)
Theorem written_names_parse_back
  (ws1 ws2 : list ascii) (parts : list NamePart) :
  parts <> [] ->
  Forall writable parts ->
  forallb isspace ws1 = true ->
  forallb isspace ws2 = true ->
  parse_names (text_to_cstring (join_parts ws1 ws2 parts)) = Some parts
  /\ dbms_assert_qualified_sql_name (Some (join_parts ws1 ws2 parts))
     = Return (join_parts ws1 ws2 parts).
Proof.
  intros Hne Hall H1 H2.
  destruct parts as [|part parts]; [contradiction|].
  destruct (join_parts_head ws1 ws2 part parts) as (rest & Hj).
  inversion Hall as [|? ? Hw _]; subst.
  destruct (written_head part rest Hw) as (H0 & Hs & Hn).
  assert (Hp : parse_names (text_to_cstring (join_parts ws1 ws2 (part :: parts)))
               = Some (part :: parts)).
  { rewrite (text_to_cstring_id _ (no_NUL_join_parts _ _ _ Hall H1 H2)).
    unfold parse_names. rewrite Hj, Hs, H0, <- Hj.
    apply names_loop_join_parts; assumption. }
  split; [exact Hp|].
  refine (qualified_sql_name_parsed _ _ _ Hp). rewrite Hj. exact Hn.
Qed.

Lemma written_names_parse_back_witness :
  parse_names
    (text_to_cstring
       (join_parts (str " ") []
          [mkNamePart (str "My Schema") true; mkNamePart (str "t_1") false]))
  = Some [mkNamePart (str "My Schema") true; mkNamePart (str "t_1") false].
Proof.
  apply (written_names_parse_back (str " ") []
           [mkNamePart (str "My Schema") true; mkNamePart (str "t_1") false]).
  - discriminate.
  - repeat constructor; discriminate.
  - reflexivity.
  - reflexivity.
Defined.

(** ** DBMS_ASSERT.SCHEMA_NAME and DBMS_ASSERT.OBJECT_NAME *)

Section HostProperties.

Variable RangeVar : Type.
Variable stringToQualifiedNameList : cstring -> option (list cstring).
Variable GetSysCacheOid_NAMESPACENAME : cstring -> Oid.
Variable GetUserId : Oid.
Variable pg_namespace_aclcheck_USAGE : Oid -> Oid -> AclResult.
Variable makeRangeVarFromNameList : list cstring -> option RangeVar.
Variable RangeVarGetRelid : RangeVar -> bool -> Oid.

Let schema_name :=
  dbms_assert_schema_name stringToQualifiedNameList
    GetSysCacheOid_NAMESPACENAME GetUserId pg_namespace_aclcheck_USAGE.

Let object_name :=
  dbms_assert_object_name RangeVar stringToQualifiedNameList
    makeRangeVarFromNameList RangeVarGetRelid.

(** X13: [schema_name] returns a value only when that value is its
    argument, not empty, for which the host's name-list parser gives
    exactly one name, the namespace lookup of that name gives a valid
    OID and the current user has the usage privilege on it; and these
    conditions suffice.  The only error it raises itself is the
    schema-name error, and the only other outcome is an error of the
    host's name-list parser. *)
Theorem schema_name_outcomes (arg : option text) :
  (forall r,
      schema_name arg = Return r <->
      arg = Some r /\ r <> []
      /\ exists name,
          stringToQualifiedNameList (text_to_cstring r) = Some [name]
          /\ OidIsValid (GetSysCacheOid_NAMESPACENAME name) = true
          /\ pg_namespace_aclcheck_USAGE
               (GetSysCacheOid_NAMESPACENAME name) GetUserId
             = ACLCHECK_OK)
  /\ (forall e, schema_name arg = Raise e -> e = INVALID_SCHEMA_NAME)
  /\ (forall f,
        schema_name arg = Fault f ->
        f = HostError
        /\ exists s, arg = Some s
                     /\ stringToQualifiedNameList (text_to_cstring s) = None).
Proof.
  unfold schema_name, dbms_assert_schema_name.
  split; [intros r; split|split].
  - destruct arg as [[|c s]|]; try discriminate.
    rewrite EMPTY_STR_cons. cbv zeta.
    destruct (stringToQualifiedNameList (text_to_cstring (c :: s)))
      as [[|name [|name' names]]|] eqn:Hl; try discriminate.
    destruct (OidIsValid (GetSysCacheOid_NAMESPACENAME name)) eqn:Ho;
      [|discriminate].
    destruct (pg_namespace_aclcheck_USAGE
                (GetSysCacheOid_NAMESPACENAME name) GetUserId) eqn:Ha;
      try discriminate.
    simpl. intros H. injection H as <-.
    split; [reflexivity|]. split; [discriminate|].
    exists name. repeat split; assumption.
  - intros (-> & Hne & name & Hl & Ho & Ha).
    destruct r as [|c s]; [contradiction|].
    rewrite EMPTY_STR_cons. cbv zeta. rewrite Hl, Ho, Ha. reflexivity.
  - intros e. destruct arg as [[|c s]|];
      try (intros H; injection H as <-; reflexivity).
    rewrite EMPTY_STR_cons. cbv zeta.
    destruct (stringToQualifiedNameList (text_to_cstring (c :: s)))
      as [[|name [|name' names]]|];
      try discriminate; try (intros H; injection H as <-; reflexivity).
    destruct (OidIsValid (GetSysCacheOid_NAMESPACENAME name));
      [|intros H; injection H as <-; reflexivity].
    destruct (pg_namespace_aclcheck_USAGE
                (GetSysCacheOid_NAMESPACENAME name) GetUserId);
      simpl; try discriminate; intros H; injection H as <-; reflexivity.
  - intros f. destruct arg as [[|c s]|]; try discriminate.
    rewrite EMPTY_STR_cons. cbv zeta.
    destruct (stringToQualifiedNameList (text_to_cstring (c :: s)))
      as [[|name [|name' names]]|] eqn:Hl; try discriminate.
    + destruct (OidIsValid (GetSysCacheOid_NAMESPACENAME name));
        [|discriminate].
      destruct (pg_namespace_aclcheck_USAGE
                  (GetSysCacheOid_NAMESPACENAME name) GetUserId);
        discriminate.
    + intros H. injection H as <-. split; [reflexivity|].
      exists (c :: s). split; [reflexivity|exact Hl].
Qed.

(** X14: [object_name] returns a value only when that value is its
    argument, not empty, for which the host's name-list parser gives a
    name list, the list makes a relation name and the lookup of that
    relation gives a valid OID; and these conditions suffice.  The only
    error it raises itself is the object-name error. *)
Theorem object_name_outcomes (arg : option text) :
  (forall r,
      object_name arg = Return r <->
      arg = Some r /\ r <> []
      /\ exists names rel,
          stringToQualifiedNameList (text_to_cstring r) = Some names
          /\ makeRangeVarFromNameList names = Some rel
          /\ OidIsValid (RangeVarGetRelid rel true) = true)
  /\ (forall e, object_name arg = Raise e -> e = INVALID_OBJECT_NAME)
  /\ (forall f, object_name arg = Fault f -> f = HostError).
Proof.
  unfold object_name, dbms_assert_object_name.
  split; [intros r; split|split].
  - destruct arg as [[|c s]|]; try discriminate.
    rewrite EMPTY_STR_cons. cbv zeta.
    destruct (stringToQualifiedNameList (text_to_cstring (c :: s)))
      as [names|] eqn:Hl; [|discriminate].
    destruct (makeRangeVarFromNameList names) as [rel|] eqn:Hr;
      [|discriminate].
    destruct (OidIsValid (RangeVarGetRelid rel true)) eqn:Ho;
      [|discriminate].
    simpl. intros H. injection H as <-.
    split; [reflexivity|]. split; [discriminate|].
    exists names, rel. repeat split; assumption.
  - intros (-> & Hne & names & rel & Hl & Hr & Ho).
    destruct r as [|c s]; [contradiction|].
    rewrite EMPTY_STR_cons. cbv zeta. rewrite Hl, Hr, Ho. reflexivity.
  - intros e. destruct arg as [[|c s]|];
      try (intros H; injection H as <-; reflexivity).
    rewrite EMPTY_STR_cons. cbv zeta.
    destruct (stringToQualifiedNameList (text_to_cstring (c :: s)))
      as [names|]; [|discriminate].
    destruct (makeRangeVarFromNameList names) as [rel|]; [|discriminate].
    destruct (OidIsValid (RangeVarGetRelid rel true)); simpl;
      try discriminate; intros H; injection H as <-; reflexivity.
  - intros f. destruct arg as [[|c s]|]; try discriminate.
    rewrite EMPTY_STR_cons. cbv zeta.
    destruct (stringToQualifiedNameList (text_to_cstring (c :: s)))
      as [names|]; [|intros H; injection H as <-; reflexivity].
    destruct (makeRangeVarFromNameList names) as [rel|];
      [|intros H; injection H as <-; reflexivity].
    destruct (OidIsValid (RangeVarGetRelid rel true)); discriminate.
Qed.

End HostProperties.

Lemma schema_name_outcomes_witness :
  dbms_assert_schema_name (fun s => Some [s]) (fun _ => 2200) 10
    (fun _ _ => ACLCHECK_OK) (Some (str "public"))
  = Return (str "public").
Proof.
  apply (proj1 (schema_name_outcomes (fun s => Some [s]) (fun _ => 2200) 10
                  (fun _ _ => ACLCHECK_OK) (Some (str "public")))
           (str "public")).
  split; [reflexivity|]. split; [discriminate|].
  exists (str "public"). repeat split.
Defined.

Lemma object_name_outcomes_witness :
  dbms_assert_object_name unit (fun s => Some [s]) (fun _ => Some tt)
    (fun _ _ => 16384) (Some (str "emp"))
  = Return (str "emp").
Proof.
  apply (proj1 (object_name_outcomes unit (fun s => Some [s])
                  (fun _ => Some tt) (fun _ _ => 16384) (Some (str "emp")))
           (str "emp")).
  split; [reflexivity|]. split; [discriminate|].
  exists [str "emp"], tt. repeat split.
Defined.

(** ** Empty segments and trailing dots behind written names *)

Lemma loop_body_written_dot (part : NamePart) (ws : list ascii)
  (rest : cstring) :
  writable part ->
  forallb isspace ws = true ->
  loop_body (written part ++ ws ++ dot :: rest)
  = Another part (skip_space rest).
Proof.
  intros Hw Hws. unfold loop_body.
  rewrite (scan_name_written part _ Hw)
    by (apply stops_spaces_then; [exact Hws | reflexivity]).
  cbv zeta. rewrite (skip_space_app_spaces _ _ Hws). reflexivity.
Qed.

(** Behind names written with dots in between, and a further dot, the loop
    stands at what follows that dot. *)
Lemma arrives_join_parts (ws1 ws2 ws : list ascii) (parts : list NamePart)
  (rest : cstring) :
  parts <> [] ->
  Forall writable parts ->
  forallb isspace ws1 = true ->
  forallb isspace ws2 = true ->
  forallb isspace ws = true ->
  arrives (join_parts ws1 ws2 parts ++ ws ++ dot :: rest) (skip_space rest).
Proof.
  intros Hne Hall H1 H2 Hws.
  induction Hall as [|part parts Hw Hall IH]; [contradiction|].
  destruct parts as [|part' parts].
  - simpl join_parts. eapply arrives_once.
    apply loop_body_written_dot; assumption.
  - assert (IH' : arrives
                    (join_parts ws1 ws2 (part' :: parts) ++ ws ++ dot :: rest)
                    (skip_space rest)) by (apply IH; discriminate).
    rewrite join_parts_cons.
    destruct (join_parts_head ws1 ws2 part' parts) as (tl' & Hj).
    inversion Hall as [|? ? Hw' _]; subst.
    rewrite Hj in *. clear Hj IH.
    replace ((written part ++ ws1 ++ dot :: ws2 ++ written part' ++ tl')
             ++ ws ++ dot :: rest)
      with (written part ++ ws1 ++ dot ::
            ws2 ++ written part' ++ tl' ++ ws ++ dot :: rest)
      by (rewrite <- !app_assoc, <- app_comm_cons, <- !app_assoc;
          reflexivity).
    rewrite <- app_assoc in IH'.
    eapply arrives_later.
    + apply loop_body_written_dot; assumption.
    + rewrite (skip_space_app_spaces _ _ H2).
      destruct (written_head part' (tl' ++ ws ++ dot :: rest) Hw')
        as (_ & -> & _).
      exact IH'.
Qed.

Lemma parse_names_behind_written (ws1 ws2 ws ws' : list ascii)
  (parts : list NamePart) (tail : cstring) :
  parts <> [] ->
  Forall writable parts ->
  forallb isspace ws1 = true ->
  forallb isspace ws2 = true ->
  forallb isspace ws = true ->
  forallb isspace ws' = true ->
  chr_is dot (deref tail) = true \/ chr_is NUL (deref tail) = true ->
  parse_names (join_parts ws1 ws2 parts ++ ws ++ dot :: ws' ++ tail) = None.
Proof.
  intros Hne Hall H1 H2 Hws Hws' Htail.
  assert (Hk : skip_space (ws' ++ tail) = tail).
  { rewrite (skip_space_app_spaces _ _ Hws').
    destruct tail as [|c tail]; [reflexivity|]. simpl in *.
    destruct Htail as [H | H]; apply chr_is_true in H; subst c;
      reflexivity. }
  apply (arrives_nothing _ tail); [|exact Htail].
  destruct parts as [|part parts]; [contradiction|].
  destruct (join_parts_head ws1 ws2 part parts) as (tl' & Hj).
  inversion Hall as [|? ? Hw _]; subst.
  assert (Ha : arrives
                 (join_parts ws1 ws2 (part :: parts)
                  ++ ws ++ dot :: ws' ++ tail)
                 (skip_space (ws' ++ tail)))
    by (apply arrives_join_parts; assumption).
  rewrite Hk in Ha. rewrite Hj in *. rewrite <- app_assoc in *.
  destruct (written_head part (tl' ++ ws ++ dot :: ws' ++ tail) Hw)
    as (_ & -> & _).
  exact Ha.
Qed.

(** C5: schema.table is split into the two names schema and table; and
    [qualified_sql_name] fails with the qualified-name error on every
    input that has an empty segment between two dots or that ends with a
    dot behind a valid part.  This is stated three times over: for every
    input on which the parser, at the place where the name behind a dot
    should begin, meets a second dot or the end of the string; for every
    input in which, behind a prefix free of quotes, a dot is followed,
    after whitespace at most, by a second dot or by the end of the
    input; and for every input that begins with valid parts, quoted and
    unquoted ones mixed, written with dots in between, followed (after
    whitespace at most) by a dot and then, after whitespace at most, by
    a second dot and anything, or by the end of the input.  schema..table
    and schema. are such inputs, and so are the same with the name
    schema between double quotes. *)
Theorem qualified_name_segments :
  parse_names (text_to_cstring (str "schema.table"))
  = Some [mkNamePart (str "schema") false; mkNamePart (str "table") false]
  /\ (forall (s : text) (p : cstring),
        arrives (skip_space (text_to_cstring s)) p ->
        chr_is dot (deref p) = true \/ chr_is NUL (deref p) = true ->
        dbms_assert_qualified_sql_name (Some s)
        = Raise ISNOT_QUALIFIED_SQL_NAME)
  /\ (forall (pre ws post : list ascii),
        outside_quotes pre = true ->
        forallb isspace ws = true ->
        dbms_assert_qualified_sql_name
          (Some (pre ++ dot :: ws ++ dot :: post))
        = Raise ISNOT_QUALIFIED_SQL_NAME
        /\ dbms_assert_qualified_sql_name (Some (pre ++ dot :: ws))
           = Raise ISNOT_QUALIFIED_SQL_NAME)
  /\ (forall (ws1 ws2 ws ws' : list ascii) (parts : list NamePart)
             (post : text),
        parts <> [] ->
        Forall writable parts ->
        forallb isspace ws1 = true ->
        forallb isspace ws2 = true ->
        forallb isspace ws = true ->
        forallb isspace ws' = true ->
        dbms_assert_qualified_sql_name
          (Some (join_parts ws1 ws2 parts ++ ws ++ dot :: ws' ++ dot :: post))
        = Raise ISNOT_QUALIFIED_SQL_NAME
        /\ dbms_assert_qualified_sql_name
             (Some (join_parts ws1 ws2 parts ++ ws ++ dot :: ws'))
           = Raise ISNOT_QUALIFIED_SQL_NAME)
  /\ dbms_assert_qualified_sql_name (Some (str "schema..table"))
     = Raise ISNOT_QUALIFIED_SQL_NAME
  /\ dbms_assert_qualified_sql_name (Some (str "schema."))
     = Raise ISNOT_QUALIFIED_SQL_NAME.
Proof.
  split; [reflexivity|].
  split; [|split; [|split; [|split; reflexivity]]].
  - intros s p Ha Hp. apply qualified_sql_name_parse_failure.
    eapply arrives_nothing; eassumption.
  - intros pre ws post Hpre Hws.
    pose proof (outside_quotes_no_NUL _ Hpre) as Hpre0.
    pose proof (spaces_no_NUL _ Hws) as Hws0.
    split; apply qualified_sql_name_parse_failure.
    + change (pre ++ dot :: ws ++ dot :: post)
        with (pre ++ [dot] ++ ws ++ dot :: post).
      rewrite (text_to_cstring_app _ _ Hpre0).
      rewrite (text_to_cstring_app [dot]) by reflexivity.
      rewrite (text_to_cstring_app _ _ Hws0).
      apply (parse_names_empty_segment pre ws
               (text_to_cstring (dot :: post)) Hpre Hws).
      left. reflexivity.
    + rewrite <- (app_nil_r ws).
      change (pre ++ dot :: ws ++ [])
        with (pre ++ [dot] ++ ws ++ []).
      rewrite (text_to_cstring_app _ _ Hpre0).
      rewrite (text_to_cstring_app [dot]) by reflexivity.
      rewrite (text_to_cstring_app _ _ Hws0).
      apply (parse_names_empty_segment pre ws
               (text_to_cstring []) Hpre Hws).
      right. reflexivity.
  - intros ws1 ws2 ws ws' parts post Hne Hall H1 H2 Hws Hws'.
    pose proof (no_NUL_join_parts _ _ _ Hall H1 H2) as Hj0.
    pose proof (spaces_no_NUL _ Hws) as Hws0.
    pose proof (spaces_no_NUL _ Hws') as Hws0'.
    split; apply qualified_sql_name_parse_failure.
    + change (join_parts ws1 ws2 parts ++ ws ++ dot :: ws' ++ dot :: post)
        with (join_parts ws1 ws2 parts ++ ws ++ [dot] ++ ws'
              ++ dot :: post).
      rewrite (text_to_cstring_app _ _ Hj0).
      rewrite (text_to_cstring_app _ _ Hws0).
      rewrite (text_to_cstring_app [dot]) by reflexivity.
      rewrite (text_to_cstring_app _ _ Hws0').
      apply (parse_names_behind_written ws1 ws2 ws ws' parts
               (text_to_cstring (dot :: post))); try assumption.
      left. reflexivity.
    + rewrite <- (app_nil_r ws').
      change (join_parts ws1 ws2 parts ++ ws ++ dot :: ws' ++ [])
        with (join_parts ws1 ws2 parts ++ ws ++ [dot] ++ ws' ++ []).
      rewrite (text_to_cstring_app _ _ Hj0).
      rewrite (text_to_cstring_app _ _ Hws0).
      rewrite (text_to_cstring_app [dot]) by reflexivity.
      rewrite (text_to_cstring_app _ _ Hws0').
      apply (parse_names_behind_written ws1 ws2 ws ws' parts
               (text_to_cstring [])); try assumption.
      right. reflexivity.
Qed.

Lemma qualified_name_segments_witness :
  arrives (skip_space (text_to_cstring (str "schema..table")))
    (str ".table")
  /\ chr_is dot (deref (str ".table")) = true
  /\ dbms_assert_qualified_sql_name (Some (str "schema..table"))
     = Raise ISNOT_QUALIFIED_SQL_NAME
  /\ outside_quotes (str "a . b") = true
  /\ forallb isspace (str "  ") = true
  /\ dbms_assert_qualified_sql_name (Some (str "a . b" ++ dot :: str "  "))
     = Raise ISNOT_QUALIFIED_SQL_NAME
  /\ dbms_assert_qualified_sql_name
       (Some (dquote :: str "schema" ++ [dquote; dot]))
     = Raise ISNOT_QUALIFIED_SQL_NAME
  /\ dbms_assert_qualified_sql_name
       (Some (dquote :: str "a" ++ [dquote; dot; dot] ++ str "b"))
     = Raise ISNOT_QUALIFIED_SQL_NAME.
Proof.
  assert (Ha : arrives (skip_space (text_to_cstring (str "schema..table")))
                 (str ".table")).
  { apply (arrives_once _ (mkNamePart (str "schema") false)). reflexivity. }
  split; [exact Ha|]. split; [reflexivity|]. split.
  - apply (proj1 (proj2 qualified_name_segments)
             (str "schema..table") (str ".table") Ha).
    left. reflexivity.
  - split; [reflexivity|]. split; [reflexivity|]. split; [|split].
    + apply (proj1 (proj2 (proj2 qualified_name_segments))
               (str "a . b") (str "  ") []); reflexivity.
    + apply (proj2 (proj1 (proj2 (proj2 (proj2 qualified_name_segments)))
               [] [] [] [] [mkNamePart (str "schema") true] []
               ltac:(discriminate)
               (Forall_cons _ (eq_refl : writable
                                  (mkNamePart (str "schema") true))
                  (Forall_nil _))
               eq_refl eq_refl eq_refl eq_refl)).
    + apply (proj1 (proj1 (proj2 (proj2 (proj2 qualified_name_segments)))
               [] [] [] [] [mkNamePart (str "a") true] (str "b")
               ltac:(discriminate)
               (Forall_cons _ (eq_refl : writable
                                  (mkNamePart (str "a") true))
                  (Forall_nil _))
               eq_refl eq_refl eq_refl eq_refl)).
Defined.
